(** * KnightVision: the game annotation pipeline of [backend/app/api/routes/game.py]

    A shallow embedding of [classify_move], [annotate_game] and
    [process_unannotated_games], and the properties of the annotation
    pipeline proved against it.

    Python [float]s are IEEE 754 binary64 numbers; they are modelled by
    Rocq's primitive floats, which are binary64 too, so the comparisons and
    subtractions below are the ones the interpreter performs. *)

From Stdlib Require Import List String Ascii Bool Arith ZArith Lia.
From Stdlib Require Import DecimalString Floats.
Import ListNotations.

Set Warnings "-inexact-float".

Local Open Scope string_scope.
Local Open Scope list_scope.

(** ** Delta and classification *)

Section Classification.

Local Open Scope float_scope.

(** game.py, lines 414-435. *)
Definition classify_move (evaluation_change : float) : string :=
  if evaluation_change <? -2.0 then "blunder"
  else if evaluation_change <? -1.0 then "mistake"
  else if evaluation_change <? -0.5 then "inaccuracy"
  else if evaluation_change <? 0.1 then "good"
  else if evaluation_change <? 0.5 then "great"
  else "excellent".

(** game.py, lines 274-280: the swing seen by the player who moved. *)
Definition evaluation_change_of (color : string)
    (evaluation_before evaluation_after : float) : float :=
  if String.eqb color "black"
  then - evaluation_after - (- evaluation_before)
  else evaluation_after - evaluation_before.

End Classification.

(** ** Data model *)

(** A row of the [games] table, with the columns the pipeline reads.
    [None] is a column that is null or missing from the row. *)
Module Game.
Record t : Type := mk {
  id : string;
  user_id : string;
  analyzed : option bool;
  pgn : option string;
  moves_only : option string
}.
End Game.

(** The pydantic model [MoveAnnotation] (game.py, lines 56-69). *)
Record MoveAnnotation : Type := mkMoveAnnotation {
  move_number : nat;
  move_san : string;
  move_uci : string;
  color : string;
  fen_before : string;
  fen_after : string;
  evaluation_before : float;
  evaluation_after : float;
  evaluation_change : float;
  classification : string;
  is_best_move : bool;
  is_book_move : bool
}.

(** The [annotation] dict of game.py, lines 289-303, which is also a row of
    the [move_annotations] table: the game it belongs to and the fields of
    [MoveAnnotation]. *)
Module Annotation.
Record t : Type := mk {
  game_id : string;
  fields : MoveAnnotation
}.
End Annotation.

(** [GameAnnotationResponse] (game.py, lines 71-75). Building it validates
    every element of [annotations] as a [MoveAnnotation], which keeps the
    declared fields of the dict and drops [game_id]. *)
Record GameAnnotationResponse : Type := mkGameAnnotationResponse {
  game_id : string;
  total_moves : nat;
  annotations : list MoveAnnotation
}.

(** [BatchAnnotationResponse] (game.py, lines 81-84). *)
Record BatchAnnotationResponse : Type := mkBatchAnnotationResponse {
  processed_games : nat;
  game_ids : list string
}.

(** What [stockfish_service.evaluate_position] returns, with the two keys the
    pipeline reads: [position["evaluation"]] and [position.get("best_move")]. *)
Record EvaluationResult : Type := mkEvaluationResult {
  evaluation : float;
  best_move : option string
}.

(** Python exceptions: FastAPI's [HTTPException], and any other exception a
    collaborator raises. *)
Inductive exception : Type :=
| HTTPException (status_code : nat) (detail : string)
| Error (message : string).

Definition string_of_nat (n : nat) : string :=
  NilEmpty.string_of_uint (Nat.to_uint n).

(** [str(e)]; Starlette prints an [HTTPException] as its status code, a colon
    and its detail. *)
Definition str (e : exception) : string :=
  match e with
  | HTTPException status_code detail => string_of_nat status_code ++ ": " ++ detail
  | Error message => message
  end.

(** The outcome of running a piece of Python: a value, or a raised exception. *)
Inductive outcome (A : Type) : Type :=
| Return (a : A)
| Raise (e : exception).
Arguments Return {A} a.
Arguments Raise {A} e.

(** The state the handlers act on: the two tables, the number of requests sent
    to the database so far, the positions sent to the engine so far, and the
    lines written by [logging.error]. *)
Record World : Type := mkWorld {
  games : list Game.t;
  move_annotations : list Annotation.t;
  db_requests : nat;
  engine_calls : list string;
  error_log : list string
}.

(** The interface of the python-chess library used by the replay loop. *)
Record ChessLib : Type := mkChessLib {
  Board : Type;
  Move : Type;
  PgnGame : Type;
  (** [chess.pgn.read_game(io.StringIO(pgn))]; [None] when no game is read *)
  read_game : string -> option PgnGame;
  (** [chess_game.board()], the starting position *)
  game_board : PgnGame -> Board;
  (** the moves of [chess_game.mainline()] *)
  mainline : PgnGame -> list Move;
  san : Board -> Move -> string;
  uci : Move -> string;
  (** [board.turn]; [chess.WHITE] is [True] *)
  turn : Board -> bool;
  fen : Board -> string;
  push : Board -> Move -> Board
}.

(** ** Handlers as state-passing programs that may raise *)

Definition M (A : Type) : Type := World -> outcome A * World.

Definition ret {A : Type} (a : A) : M A := fun w => (Return a, w).

Definition raise {A : Type} (e : exception) : M A := fun w => (Raise e, w).

Definition bind {A B : Type} (m : M A) (k : A -> M B) : M B :=
  fun w =>
    match m w with
    | (Return a, w') => k a w'
    | (Raise e, w') => (Raise e, w')
    end.

(** [try: body except Exception as e: handler(e)]. FastAPI's [HTTPException]
    derives from [Exception], so the handler sees it as well. *)
Definition try_except {A : Type} (body : M A) (handler : exception -> M A) : M A :=
  fun w =>
    match body w with
    | (Return a, w') => (Return a, w')
    | (Raise e, w') => handler e w'
    end.

Notation "x <- m ;; k" := (bind m (fun x => k))
  (at level 61, m at next level, right associativity).
Notation "m ;;; k" := (bind m (fun _ => k))
  (at level 61, right associativity).

(** [logging.error(line)] *)
Definition logging_error (line : string) : M unit :=
  fun w =>
    (Return tt,
     mkWorld (games w) (move_annotations w) (db_requests w) (engine_calls w)
             (error_log w ++ [line])).

(** Python truthiness of a nullable boolean and of a nullable string. *)
Definition truthy (b : option bool) : bool :=
  match b with Some true => true | _ => false end.

Definition nonempty (s : option string) : bool :=
  match s with Some (String _ _) => true | _ => false end.

(** [game.get("pgn") or game.get("moves_only", default)], the default
    being the empty string: the first of the two that is a non-empty string,
    else the second as it is. *)
Definition pgn_or_moves_only (game : Game.t) : option string :=
  if nonempty (Game.pgn game) then Game.pgn game else Game.moves_only game.

(** *** The tables *)

(** [.eq("id", game_id)] on [games] *)
Definition games_with_id (game_id : string) (rows : list Game.t) : list Game.t :=
  filter (fun g => String.eqb (Game.id g) game_id) rows.

(** [.eq("game_id", game_id)] on [move_annotations] *)
Definition rows_of_game (game_id : string) (rows : list Annotation.t) : list Annotation.t :=
  filter (fun r => String.eqb (Annotation.game_id r) game_id) rows.

(** [.order("move_number")]: ascending by move number; rows with the same
    move number are delivered in the order they are stored. *)
Fixpoint insert_by_move_number (r : Annotation.t) (rows : list Annotation.t) : list Annotation.t :=
  match rows with
  | [] => [r]
  | r' :: rest =>
      if Nat.leb (move_number (Annotation.fields r)) (move_number (Annotation.fields r'))
      then r :: r' :: rest
      else r' :: insert_by_move_number r rest
  end.

Definition order_by_move_number (rows : list Annotation.t) : list Annotation.t :=
  fold_right insert_by_move_number [] rows.

(** [{"analyzed": True}] written to a row. *)
Definition mark (g : Game.t) : Game.t :=
  Game.mk (Game.id g) (Game.user_id g) (Some true) (Game.pgn g) (Game.moves_only g).

(** [.update({"analyzed": True}).eq("id", game_id)] on [games] *)
Definition set_analyzed (game_id : string) (rows : list Game.t) : list Game.t :=
  map (fun g => if String.eqb (Game.id g) game_id then mark g else g) rows.

(** [.select("id").eq("analyzed", False).limit(limit)] on [games] *)
Definition unanalyzed_ids (limit : nat) (rows : list Game.t) : list string :=
  firstn limit
    (map Game.id
       (filter (fun g => match Game.analyzed g with Some false => true | _ => false end)
               rows)).

Section Pipeline.

(** The collaborators. [evaluate_position n fen] is what the engine answers to
    the position [fen] when [n] evaluations were requested before: a result,
    or the exception the service raises. [db_down n] tells whether the
    database request number [n] fails, in which case [execute()] raises and
    the tables stay as they are. *)
Variable chess : ChessLib.
Variable evaluate_position : nat -> string -> exception + EvaluationResult.
Variable db_down : nat -> bool.

(** One [....execute()]: [query] reads and updates the tables. *)
Definition execute {A : Type}
    (query : list Game.t -> list Annotation.t -> A * list Game.t * list Annotation.t) : M A :=
  fun w =>
    if db_down (db_requests w)
    then (Raise (Error "database request failed"),
          mkWorld (games w) (move_annotations w) (S (db_requests w))
                  (engine_calls w) (error_log w))
    else
      let '(a, games', rows') := query (games w) (move_annotations w) in
      (Return a,
       mkWorld games' rows' (S (db_requests w)) (engine_calls w) (error_log w)).

Definition select_game (game_id : string) : M (list Game.t) :=
  execute (fun gs rs => (games_with_id game_id gs, gs, rs)).

Definition select_annotations (game_id : string) : M (list Annotation.t) :=
  execute (fun gs rs => (order_by_move_number (rows_of_game game_id rs), gs, rs)).

Definition insert_annotation (annotation : Annotation.t) : M unit :=
  execute (fun gs rs => (tt, gs, rs ++ [annotation])).

Definition update_analyzed (game_id : string) : M unit :=
  execute (fun gs rs => (tt, set_analyzed game_id gs, rs)).

Definition select_unanalyzed (limit : nat) : M (list string) :=
  execute (fun gs rs => (unanalyzed_ids limit gs, gs, rs)).

(** [await stockfish_service.evaluate_position(fen)] *)
Definition stockfish_evaluate (fen : string) : M EvaluationResult :=
  fun w =>
    let w' := mkWorld (games w) (move_annotations w) (db_requests w)
                      (engine_calls w ++ [fen]) (error_log w) in
    match evaluate_position (List.length (engine_calls w)) fen with
    | inl e => (Raise e, w')
    | inr position => (Return position, w')
    end.

(** [position_before.get("best_move") == move_uci] *)
Definition is_best (position : EvaluationResult) (move_uci : string) : bool :=
  match best_move position with
  | Some m => String.eqb m move_uci
  | None => false
  end.

(** The loop of game.py, lines 254-309, over the moves still to replay. *)
Fixpoint annotate_moves (game_id : string) (board : Board chess)
    (moves : list (Move chess)) (move_number : nat)
    (move_annotations : list Annotation.t) : M (list Annotation.t) :=
  match moves with
  | [] => ret move_annotations
  | move :: rest =>
      let move_san := san chess board move in
      let move_uci := uci chess move in
      let color := if turn chess board then "white" else "black" in
      let fen_before := fen chess board in
      position_before <- stockfish_evaluate fen_before ;;
      let evaluation_before := evaluation position_before in
      let board := push chess board move in
      let fen_after := fen chess board in
      position_after <- stockfish_evaluate fen_after ;;
      let evaluation_after := evaluation position_after in
      let evaluation_change :=
        evaluation_change_of color evaluation_before evaluation_after in
      let classification := classify_move evaluation_change in
      let is_best_move := is_best position_before move_uci in
      let annotation :=
        Annotation.mk game_id
          (mkMoveAnnotation move_number move_san move_uci color fen_before
             fen_after evaluation_before evaluation_after evaluation_change
             classification is_best_move false) in
      annotate_moves game_id board rest
        (if String.eqb color "black" then S move_number else move_number)
        (move_annotations ++ [annotation])
  end.

(** The loop of game.py, lines 312-313. *)
Fixpoint insert_annotations (move_annotations : list Annotation.t) : M unit :=
  match move_annotations with
  | [] => ret tt
  | annotation :: rest => insert_annotation annotation ;;; insert_annotations rest
  end.

(** The body of the [try] of [annotate_game], game.py, lines 217-323. *)
Definition annotate_game_body (game_id user_id : string) : M GameAnnotationResponse :=
  game_response <- select_game game_id ;;
  match game_response with
  | [] => raise (HTTPException 404 "Game not found")
  | game :: _ =>
      if negb (String.eqb (Game.user_id game) user_id)
      then raise (HTTPException 403 "Unauthorized access to this game")
      else if truthy (Game.analyzed game)
      then
        annotations_response <- select_annotations game_id ;;
        ret (mkGameAnnotationResponse game_id (List.length annotations_response)
               (map Annotation.fields annotations_response))
      else
        match pgn_or_moves_only game with
        | Some (String c s) =>
            match read_game chess (String c s) with
            | None => raise (HTTPException 400 "Invalid PGN format")
            | Some chess_game =>
                move_annotations <-
                  annotate_moves game_id (game_board chess chess_game)
                    (mainline chess chess_game) 1 [] ;;
                insert_annotations move_annotations ;;;
                update_analyzed game_id ;;;
                ret (mkGameAnnotationResponse game_id (List.length move_annotations)
                       (map Annotation.fields move_annotations))
            end
        | _ => raise (HTTPException 400 "Game does not contain valid PGN data")
        end
  end.

(** [annotate_game], game.py, lines 199-326. *)
Definition annotate_game (game_id user_id : string) : M GameAnnotationResponse :=
  try_except (annotate_game_body game_id user_id)
    (fun e =>
       logging_error ("Error annotating game: " ++ str e) ;;;
       raise (HTTPException 500 ("Error annotating game: " ++ str e))).

(** The loop of game.py, lines 358-368. *)
Fixpoint process_games (user_id : string) (game_ids : list string)
    (processed_game_ids : list string) : M (list string) :=
  match game_ids with
  | [] => ret processed_game_ids
  | game_id :: rest =>
      processed_game_ids <-
        try_except
          (annotate_game game_id user_id ;;;
           ret (processed_game_ids ++ [game_id]))
          (fun e =>
             logging_error ("Error processing game " ++ game_id ++ ": " ++ str e) ;;;
             ret processed_game_ids) ;;
      process_games user_id rest processed_game_ids
  end.

(** [process_unannotated_games], game.py, lines 328-376; [limit] is
    [request.limit]. *)
Definition process_unannotated_games (limit : nat) (user_id : string)
    : M BatchAnnotationResponse :=
  try_except
    (games_response <- select_unanalyzed limit ;;
     match games_response with
     | [] => ret (mkBatchAnnotationResponse 0 [])
     | _ :: _ =>
         processed_game_ids <- process_games user_id games_response [] ;;
         ret (mkBatchAnnotationResponse (List.length processed_game_ids) processed_game_ids)
     end)
    (fun e =>
       logging_error ("Error in batch processing: " ++ str e) ;;;
       raise (HTTPException 500 ("Error in batch processing: " ++ str e))).

End Pipeline.

Arguments execute db_down {A} query w.
Arguments annotate_moves chess evaluate_position game_id board moves
  move_number move_annotations w.

(** ** What the properties are stated with *)

(** [game_response.data[0]], the row the handlers take for [game_id]. *)
Definition lookup_game (game_id : string) (w : World) : option Game.t :=
  head (games_with_id game_id (games w)).

(** The owner of the game [game_id], and whether it is marked analyzed. *)
Definition owner (game_id : string) (w : World) : option string :=
  option_map Game.user_id (lookup_game game_id w).

Definition flagged (game_id : string) (w : World) : bool :=
  match lookup_game game_id w with
  | Some game => truthy (Game.analyzed game)
  | None => false
  end.

(** The annotation set stored for a game, as the database delivers it. *)
Definition persisted (game_id : string) (w : World) : list Annotation.t :=
  order_by_move_number (rows_of_game game_id (move_annotations w)).

Definition response_of (game_id : string) (rows : list Annotation.t) : GameAnnotationResponse :=
  mkGameAnnotationResponse game_id (List.length rows) (map Annotation.fields rows).

(** Both tables are the same in [w] and [w']: nothing was written. *)
Definition no_writes (w w' : World) : Prop :=
  games w' = games w /\ move_annotations w' = move_annotations w.

(** The rows stored for a game cover none of its plies or all of them. *)
Definition complete_or_absent (stored : list Annotation.t) (plies : nat) : Prop :=
  stored = [] \/ List.length stored = plies.

(** The numbering the data model describes: White moves first, colors
    alternate, and the [k]-th ply carries the move number [ceil(k/2)]. *)
Definition ceil_half (k : nat) : nat := (k + 1) / 2.

Definition starts_white_numbered (plies : list MoveAnnotation) : Prop :=
  forall i a, nth_error plies i = Some a ->
    color a = (if Nat.even i then "white" else "black") /\
    move_number a = ceil_half (S i).

(** Consecutive plies are played by different colors, and the move number
    goes up by one after a ply of Black and only then. *)
Definition alternates (plies : list MoveAnnotation) : Prop :=
  forall i a b, nth_error plies i = Some a -> nth_error plies (S i) = Some b ->
    color a <> color b /\
    move_number b =
      (if String.eqb (color a) "black" then S (move_number a) else move_number a).

(** The swing is the one seen by the player who moved, and the label is the
    one [classify_move] gives to it. *)
Definition from_movers_side (a : MoveAnnotation) : Prop :=
  (color a = "white" \/ color a = "black") /\
  (color a = "white" ->
   evaluation_change a = (evaluation_after a - evaluation_before a)%float) /\
  (color a = "black" ->
   evaluation_change a = (evaluation_before a - evaluation_after a)%float) /\
  classification a = classify_move (evaluation_change a).

(** Each ply starts from the position the previous one ended in. *)
Definition continuous (plies : list MoveAnnotation) : Prop :=
  forall i a b, nth_error plies i = Some a -> nth_error plies (S i) = Some b ->
    fen_after a = fen_before b.

Section Specification.

Variable chess : ChessLib.
Variable evaluate_position : nat -> string -> exception + EvaluationResult.
Variable db_down : nat -> bool.

(** Every evaluation of [calls], the first of which is request number [from],
    is answered by the engine. *)
Definition calls_ok (from : nat) (calls : list string) : Prop :=
  forall i fen, nth_error calls i = Some fen ->
    exists position, evaluate_position (from + i) fen = inr position.

(** [rows] are the annotations of the plies [moves] played from [board], the
    first of them numbered [n]. *)
Inductive replayed (game_id : string)
    : Board chess -> nat -> list (Move chess) -> list Annotation.t -> Prop :=
| replayed_nil board n : replayed game_id board n [] []
| replayed_cons board n move moves r rows :
    Annotation.game_id r = game_id ->
    move_number (Annotation.fields r) = n ->
    move_san (Annotation.fields r) = san chess board move ->
    move_uci (Annotation.fields r) = uci chess move ->
    color (Annotation.fields r) = (if turn chess board then "white" else "black") ->
    fen_before (Annotation.fields r) = fen chess board ->
    fen_after (Annotation.fields r) = fen chess (push chess board move) ->
    evaluation_change (Annotation.fields r) =
      evaluation_change_of (color (Annotation.fields r))
        (evaluation_before (Annotation.fields r)) (evaluation_after (Annotation.fields r)) ->
    classification (Annotation.fields r) = classify_move (evaluation_change (Annotation.fields r)) ->
    is_book_move (Annotation.fields r) = false ->
    replayed game_id (push chess board move)
      (if turn chess board then n else S n) moves rows ->
    replayed game_id board n (move :: moves) (r :: rows).

(** The game [game_id] is there, belongs to [user_id], is not marked analyzed
    and its move text reads as [chess_game]. *)
Definition to_annotate (game_id user_id : string) (w : World)
    (chess_game : PgnGame chess) : Prop :=
  exists game text,
    lookup_game game_id w = Some game /\
    Game.user_id game = user_id /\
    truthy (Game.analyzed game) = false /\
    pgn_or_moves_only game = Some text /\
    read_game chess text = Some chess_game.

(** The ways a call of [annotate_game] from [w] can end. *)
Inductive annotate_run (game_id user_id : string) (w : World)
    : outcome GameAnnotationResponse -> World -> Prop :=
| run_refused detail w' :
    no_writes w w' ->
    engine_calls w' = engine_calls w ->
    error_log w' = error_log w ++ ["Error annotating game: " ++ detail]%string ->
    annotate_run game_id user_id w
      (Raise (HTTPException 500 ("Error annotating game: " ++ detail))) w'
| run_stored game w' :
    lookup_game game_id w = Some game ->
    Game.user_id game = user_id ->
    truthy (Game.analyzed game) = true ->
    no_writes w w' ->
    engine_calls w' = engine_calls w ->
    error_log w' = error_log w ->
    annotate_run game_id user_id w
      (Return (response_of game_id (persisted game_id w))) w'
| run_engine_failed chess_game detail calls w' :
    to_annotate game_id user_id w chess_game ->
    no_writes w w' ->
    engine_calls w' = engine_calls w ++ calls ->
    error_log w' = error_log w ++ ["Error annotating game: " ++ detail]%string ->
    annotate_run game_id user_id w
      (Raise (HTTPException 500 ("Error annotating game: " ++ detail))) w'
| run_write_failed chess_game detail calls rows k i w' :
    to_annotate game_id user_id w chess_game ->
    engine_calls w' = engine_calls w ++ calls ->
    calls_ok (List.length (engine_calls w)) calls ->
    replayed game_id (game_board chess chess_game) 1 (mainline chess chess_game) rows ->
    k <= List.length rows ->
    move_annotations w' = move_annotations w ++ firstn k rows ->
    games w' = games w ->
    db_requests w <= i -> db_down i = true ->
    error_log w' = error_log w ++ ["Error annotating game: " ++ detail]%string ->
    annotate_run game_id user_id w
      (Raise (HTTPException 500 ("Error annotating game: " ++ detail))) w'
| run_annotated chess_game calls rows w' :
    to_annotate game_id user_id w chess_game ->
    engine_calls w' = engine_calls w ++ calls ->
    calls_ok (List.length (engine_calls w)) calls ->
    replayed game_id (game_board chess chess_game) 1 (mainline chess chess_game) rows ->
    move_annotations w' = move_annotations w ++ rows ->
    games w' = set_analyzed game_id (games w) ->
    error_log w' = error_log w ->
    annotate_run game_id user_id w (Return (response_of game_id rows)) w'.

End Specification.

(** ** A small instance to run the handlers on

    A stand-in for python-chess that knows two games: one from the standard
    starting position, and one whose PGN carries a [FEN] header with Black to
    move, which [chess_game.board()] honours. *)
Module Sample.

Record board : Type := mkBoard {
  white_to_move : bool;
  position : string
}.

Definition dquote : string := String (ascii_of_nat 34) EmptyString.
Definition newline : string := String (ascii_of_nat 10) EmptyString.

Definition start_fen : string :=
  "rnbqkbnr/pppppppp/8/8/8/8/PPPPPPPP/RNBQKBNR w KQkq - 0 1".
Definition after_e4 : string :=
  "rnbqkbnr/pppppppp/8/8/4P3/8/PPPP1PPP/RNBQKBNR b KQkq - 0 1".
Definition after_e4_e5 : string :=
  "rnbqkbnr/pppp1ppp/8/4p3/4P3/8/PPPP1PPP/RNBQKBNR w KQkq - 0 2".

Definition kings_fen : string := "4k3/8/8/8/8/8/8/4K3 b - - 0 1".
Definition after_Kd7 : string := "8/3k4/8/8/8/8/8/4K3 w - - 1 2".
Definition after_Kd7_Kd2 : string := "8/3k4/8/8/8/8/3K4/8 b - - 2 2".

Definition open_game_pgn : string := "1. e4 e5".
Definition kings_pgn : string :=
  ("[FEN " ++ dquote ++ kings_fen ++ dquote ++ "]" ++ newline ++ newline
   ++ "1... Kd7 2. Kd2")%string.

(** The positions reached by the moves of the two games. *)
Definition transitions : list (string * string * string) :=
  [ (start_fen, "e2e4", after_e4);
    (after_e4, "e7e5", after_e4_e5);
    (kings_fen, "e8d7", after_Kd7);
    (after_Kd7, "e1d2", after_Kd7_Kd2) ].

Definition next_position (p move : string) : string :=
  match find (fun t => String.eqb (fst (fst t)) p && String.eqb (snd (fst t)) move)
             transitions with
  | Some t => snd t
  | None => (p ++ " " ++ move)%string
  end.

Definition sample_push (b : board) (move : string) : board :=
  mkBoard (negb (white_to_move b)) (next_position (position b) move).

Definition sample_read_game (pgn : string) : option (board * list string) :=
  if String.eqb pgn open_game_pgn
  then Some (mkBoard true start_fen, ["e2e4"; "e7e5"])
  else if String.eqb pgn kings_pgn
  then Some (mkBoard false kings_fen, ["e8d7"; "e1d2"])
  else None.

Definition sample_san (b : board) (move : string) : string :=
  if String.eqb move "e2e4" then "e4"
  else if String.eqb move "e7e5" then "e5"
  else if String.eqb move "e8d7" then "Kd7"
  else if String.eqb move "e1d2" then "Kd2"
  else move.

Definition lib : ChessLib :=
  mkChessLib board string (board * list string)
    sample_read_game fst snd sample_san (fun move => move)
    white_to_move position sample_push.

(** An engine that answers every position. *)
Definition engine (n : nat) (fen : string) : exception + EvaluationResult :=
  inr (mkEvaluationResult
         (if String.eqb fen after_e4 then 0.5%float
          else if String.eqb fen after_e4_e5 then 0.2%float
          else 0%float)
         (if String.eqb fen start_fen then Some "e2e4" else None)).

(** An engine that is unreachable from its [k]-th request on. *)
Definition engine_failing_from (k n : nat) (fen : string)
    : exception + EvaluationResult :=
  if Nat.leb k n then inl (Error "engine unavailable") else engine n fen.

(** A database that answers every request, and one whose request number [k]
    fails. *)
Definition db_up (n : nat) : bool := false.
Definition db_failing_at (k n : nat) : bool := Nat.eqb n k.

Definition open_game : Game.t :=
  Game.mk "g1" "alice" (Some false) (Some open_game_pgn) None.
Definition kings_game : Game.t :=
  Game.mk "g2" "alice" (Some false) (Some kings_pgn) None.
Definition bobs_game : Game.t :=
  Game.mk "g3" "bob" (Some false) (Some open_game_pgn) None.

(** A game with no move text at all. *)
Definition empty_game : Game.t := Game.mk "g4" "alice" (Some false) None None.

Definition world (gs : list Game.t) : World := mkWorld gs [] 0 [] [].

(** The world after the first game has been annotated. *)
Definition stored_world : World :=
  snd (annotate_game lib engine db_up "g1" "alice" (world [open_game])).

End Sample.

(** ** The other handlers of game.py *)

(** *** Reading the stored annotations *)

Section Retrieval.

Variable db_down : nat -> bool.

(** [.select("user_id").eq("id", game_id)] on [games] *)
Definition select_user_id (game_id : string) : M (list string) :=
  execute db_down
    (fun gs rs => (map Game.user_id (games_with_id game_id gs), gs, rs)).

(** [get_game_annotations], game.py, lines 378-412. The rows are returned
    through [List[MoveAnnotation]], which keeps the fields of the model. *)
Definition get_game_annotations (game_id user_id : string) : M (list MoveAnnotation) :=
  try_except
    (game_response <- select_user_id game_id ;;
     match game_response with
     | [] => raise (HTTPException 404 "Game not found")
     | owner_id :: _ =>
         if negb (String.eqb owner_id user_id)
         then raise (HTTPException 403 "Unauthorized access to this game")
         else
           annotations_response <- select_annotations db_down game_id ;;
           ret (map Annotation.fields annotations_response)
     end)
    (fun e =>
       logging_error ("Error retrieving annotations: " ++ str e) ;;;
       raise (HTTPException 500 ("Error retrieving annotations: " ++ str e))).

End Retrieval.

(** *** Moves and engine queries

    These handlers catch [ValueError] by name, so what is raised is either a
    [ValueError] or some other exception. *)

Inductive raised : Type :=
| ValueError (message : string)
| Other (e : exception).

Definition str_raised (e : raised) : string :=
  match e with
  | ValueError message => message
  | Other e => str e
  end.

(** [try: body except ValueError: on_value_error] *)
Definition except_value_error {A : Type} (body on_value_error : raised + A)
    : raised + A :=
  match body with
  | inl (ValueError _) => on_value_error
  | _ => body
  end.

(** [try: body except ValueError: on_value_error
     except Exception as e: on_exception(e)] *)
Definition except_value_error_or_exception {A : Type} (body on_value_error : raised + A)
    (on_exception : raised -> raised + A) : raised + A :=
  match body with
  | inl (ValueError _) => on_value_error
  | inl e => on_exception e
  | inr a => inr a
  end.

Module MoveRequest.
Record t : Type := mk {
  fen : string;
  move : string
}.
End MoveRequest.

Module MoveResponse.
Record t : Type := mk {
  fen : string;
  is_check : bool;
  is_checkmate : bool;
  is_stalemate : bool;
  is_game_over : bool;
  legal_moves : list string
}.
End MoveResponse.

Module BestMoveRequest.
Record t : Type := mk {
  fen : string;
  skill_level : Z;
  move_time : float
}.
End BestMoveRequest.

(** [BestMoveResponse], and the dict [stockfish_service.get_best_move]
    returns, whose [move] may be [None] or empty. *)
Module BestMoveResponse.
Record t : Type := mk {
  move : string;
  evaluation : float;
  is_mate : bool;
  mate_in : option Z
}.
End BestMoveResponse.

Module BestMoveResult.
Record t : Type := mk {
  move : option string;
  evaluation : float;
  is_mate : bool;
  mate_in : option Z
}.
End BestMoveResult.

Module EvaluationRequest.
Record t : Type := mk {
  fen : string;
  depth : option Z
}.
End EvaluationRequest.

(** [EvaluationResponse]; the dict [stockfish_service.evaluate_position]
    returns has the same keys. *)
Module EvaluationResponse.
Record t : Type := mk {
  fen : string;
  evaluation : float;
  depth : Z;
  is_mate : bool;
  mate_in : option Z;
  best_move : option string
}.
End EvaluationResponse.

(** What [make_move] uses of python-chess besides the replay interface.
    [board_of_fen] is [chess.Board(fen)] and [from_uci] is
    [chess.Move.from_uci]: both raise [ValueError], with a message, on text
    they cannot read. [is_legal] is [move in board.legal_moves] and
    [legal_moves] the moves [board.legal_moves] yields. *)
Record ChessRules : Type := mkChessRules {
  replay : ChessLib;
  board_of_fen : string -> string + Board replay;
  from_uci : string -> string + Move replay;
  is_legal : Board replay -> Move replay -> bool;
  legal_moves : Board replay -> list (Move replay);
  is_check : Board replay -> bool;
  is_checkmate : Board replay -> bool;
  is_stalemate : Board replay -> bool;
  is_game_over : Board replay -> bool
}.

Module Endpoints.

Section Moves.

Variable rules : ChessRules.

(** [make_move], game.py, lines 86-121. *)
Definition make_move (move_request : MoveRequest.t) : raised + MoveResponse.t :=
  except_value_error
    (match board_of_fen rules (MoveRequest.fen move_request) with
     | inl message => inl (ValueError message)
     | inr board =>
         match from_uci rules (MoveRequest.move move_request) with
         | inl message => inl (ValueError message)
         | inr move =>
             if negb (is_legal rules board move)
             then inl (Other (HTTPException 400 "Illegal move"))
             else
               let board := push (replay rules) board move in
               let legal_moves :=
                 map (uci (replay rules)) (legal_moves rules board) in
               inr (MoveResponse.mk (fen (replay rules) board)
                      (is_check rules board) (is_checkmate rules board)
                      (is_stalemate rules board) (is_game_over rules board)
                      legal_moves)
         end
     end)
    (inl (Other (HTTPException 400 "Invalid FEN or move format"))).

End Moves.

Section Engine.

(** [stockfish_service.get_best_move(fen, skill_level=..., move_time=...)]
    and [stockfish_service.evaluate_position(fen, depth)]: a result, or what
    the service raises. *)
Variable best_move_service : string -> Z -> float -> raised + BestMoveResult.t.
Variable evaluation_service : string -> option Z -> raised + EvaluationResponse.t.

(** [get_best_move], game.py, lines 123-153. *)
Definition get_best_move (request : BestMoveRequest.t) : raised + BestMoveResponse.t :=
  except_value_error_or_exception
    (match best_move_service (BestMoveRequest.fen request)
             (BestMoveRequest.skill_level request)
             (BestMoveRequest.move_time request) with
     | inl e => inl e
     | inr result =>
         match BestMoveResult.move result with
         | Some (String c s) =>
             inr (BestMoveResponse.mk (String c s)
                    (BestMoveResult.evaluation result)
                    (BestMoveResult.is_mate result)
                    (BestMoveResult.mate_in result))
         | _ => inl (Other (HTTPException 400 "No legal moves available"))
         end
     end)
    (inl (Other (HTTPException 400 "Invalid FEN format")))
    (fun e => inl (Other (HTTPException 500 ("Engine error: " ++ str_raised e)))).

(** [evaluate_position], game.py, lines 155-180. *)
Definition evaluate_position (request : EvaluationRequest.t)
    : raised + EvaluationResponse.t :=
  except_value_error_or_exception
    (match evaluation_service (EvaluationRequest.fen request)
             (EvaluationRequest.depth request) with
     | inl e => inl e
     | inr result =>
         inr (EvaluationResponse.mk
                (EvaluationResponse.fen result)
                (EvaluationResponse.evaluation result)
                (EvaluationResponse.depth result)
                (EvaluationResponse.is_mate result)
                (EvaluationResponse.mate_in result)
                (EvaluationResponse.best_move result))
     end)
    (inl (Other (HTTPException 400 "Invalid FEN format")))
    (fun e => inl (Other (HTTPException 500 ("Engine error: " ++ str_raised e)))).

End Engine.

End Endpoints.

(** The dict [new_game] returns, game.py, lines 182-197. *)
Module NewGame.
Record t : Type := mk {
  id : string;
  fen : string;
  legal_moves : list string;
  is_game_over : bool
}.
End NewGame.

(** [new_game]: [starting_board] is [chess.Board()] and [uuid4] the text of
    the identifier drawn by [uuid.uuid4()]. *)
Definition new_game (rules : ChessRules) (starting_board : Board (replay rules))
    (uuid4 : string) : NewGame.t :=
  let board := starting_board in
  NewGame.mk uuid4 (fen (replay rules) board)
    (map (uci (replay rules)) (legal_moves rules board)) false.

(** ** What the further properties are stated with *)

(** The labels of [classify_move], from worst to best. *)
Definition label_rank (label : string) : nat :=
  if String.eqb label "blunder" then 0
  else if String.eqb label "mistake" then 1
  else if String.eqb label "inaccuracy" then 2
  else if String.eqb label "good" then 3
  else if String.eqb label "great" then 4
  else 5.

(** [g'] is the row [g], possibly marked analyzed since: same id, owner and
    move text, and a flag that is still set if it was. *)
Definition row_kept (g g' : Game.t) : Prop :=
  Game.id g' = Game.id g /\
  Game.user_id g' = Game.user_id g /\
  Game.pgn g' = Game.pgn g /\
  Game.moves_only g' = Game.moves_only g /\
  (truthy (Game.analyzed g) = true -> truthy (Game.analyzed g') = true).

(** What a handler leaves of the world it started from: every game row, in
    place, and every stored annotation, engine request and log line, in
    front of what it added. *)
Definition world_kept (w w' : World) : Prop :=
  Forall2 row_kept (games w) (games w') /\
  (exists added, move_annotations w' = move_annotations w ++ added) /\
  (exists calls, engine_calls w' = engine_calls w ++ calls) /\
  (exists lines, error_log w' = error_log w ++ lines).

(** The game [game_id] can be annotated for [user_id]: it is there, owned by
    [user_id], not marked analyzed, and its move text is not empty and is
    read by the library. *)
Definition ready (chess : ChessLib) (user_id game_id : string) (w : World) : Prop :=
  exists game text chess_game,
    lookup_game game_id w = Some game /\
    Game.user_id game = user_id /\
    truthy (Game.analyzed game) = false /\
    pgn_or_moves_only game = Some text /\
    text <> "" /\
    read_game chess text = Some chess_game.

(** The positions a replay sends to the engine: for each ply the position
    before it and the position after it. *)
Definition positions_evaluated (plies : list MoveAnnotation) : list string :=
  flat_map (fun a => [fen_before a; fen_after a]) plies.

(** What the engine answered is what the plies record: the ply at index [j]
    holds the answers to the requests number [2j] and [2j+1] of the replay,
    the first of which is the request number [from]. *)
Definition answers_recorded
    (evaluate_position : nat -> string -> exception + EvaluationResult)
    (from : nat) (plies : list MoveAnnotation) : Prop :=
  forall j a, nth_error plies j = Some a ->
    exists before after,
      evaluate_position (from + 2 * j) (fen_before a) = inr before /\
      evaluate_position (from + 2 * j + 1) (fen_after a) = inr after /\
      evaluation_before a = evaluation before /\
      evaluation_after a = evaluation after /\
      is_best_move a = is_best before (move_uci a).

(** The library reads back what it printed of [board]: the position, and
    each move it lists as legal there, which is legal in the position read. *)
Definition reads_back (rules : ChessRules) (board : Board (replay rules)) : Prop :=
  exists next,
    board_of_fen rules (fen (replay rules) board) = inr next /\
    forall m, In m (legal_moves rules board) ->
      from_uci rules (uci (replay rules) m) = inr m /\
      is_legal rules next m = true.

(** ** A small instance for the move and engine handlers *)
Module SampleRules.

Definition known_positions : list (string * bool) :=
  [ (Sample.start_fen, true); (Sample.after_e4, false); (Sample.after_e4_e5, true) ].

Definition sample_board_of_fen (fen : string) : string + Sample.board :=
  match find (fun p => String.eqb (fst p) fen) known_positions with
  | Some p => inr (Sample.mkBoard (snd p) (fst p))
  | None => inl "invalid fen"
  end.

Definition sample_from_uci (text : string) : string + string :=
  if Nat.eqb (String.length text) 4 then inr text else inl "invalid uci".

Definition moves_from (position : string) : list string :=
  map (fun t => snd (fst t))
    (filter (fun t => String.eqb (fst (fst t)) position) Sample.transitions).

Definition sample_is_legal (b : Sample.board) (move : string) : bool :=
  existsb (String.eqb move) (moves_from (Sample.position b)).

Definition rules : ChessRules :=
  mkChessRules Sample.lib sample_board_of_fen sample_from_uci sample_is_legal
    (fun b => moves_from (Sample.position b))
    (fun _ => false) (fun _ => false) (fun _ => false) (fun _ => false).

(** The position after 1. f3 e5 2. g4 Qh4, where White is mated. *)
Definition mated_fen : string :=
  "rnb1kbnr/pppp1ppp/8/4p3/6Pq/5P2/PPPPP2P/RNBQKBNR w KQkq - 1 3".

(** An engine service that knows the starting position and the mated one,
    and takes any other text for an invalid position. *)
Definition best_move_service (fen : string) (skill_level : Z) (move_time : float)
    : raised + BestMoveResult.t :=
  if String.eqb fen Sample.start_fen
  then inr (BestMoveResult.mk (Some "e2e4") 0.3%float false None)
  else if String.eqb fen mated_fen
  then inr (BestMoveResult.mk None 0%float true (Some 0%Z))
  else inl (ValueError "invalid fen").

(** An engine service that is unreachable. *)
Definition evaluation_service_down (fen : string) (depth : option Z)
    : raised + EvaluationResponse.t :=
  inl (Other (Error "engine unavailable")).

(** A PGN with headers and no move, which python-chess reads as a game with
    an empty main line. *)
Definition headers_pgn : string :=
  ("[Event " ++ Sample.dquote ++ "Casual" ++ Sample.dquote ++ "]")%string.

Definition read_game_or_headers (pgn : string) : option (Sample.board * list string) :=
  if String.eqb pgn headers_pgn
  then Some (Sample.mkBoard true Sample.start_fen, [])
  else Sample.sample_read_game pgn.

Definition lib_with_headers : ChessLib :=
  mkChessLib Sample.board string (Sample.board * list string)
    read_game_or_headers fst snd Sample.sample_san (fun move => move)
    Sample.white_to_move Sample.position Sample.sample_push.

Definition headers_game : Game.t :=
  Game.mk "g5" "alice" (Some false) (Some headers_pgn) None.

(** An engine that answers nothing. *)
Definition engine_down (n : nat) (fen : string) : exception + EvaluationResult :=
  inl (Error "engine unavailable").

(** The world after a call whose second insert failed: one row of the first
    game is stored and the game is not marked analyzed. *)
Definition partial_world : World :=
  snd (annotate_game Sample.lib Sample.engine (Sample.db_failing_at 2) "g1" "alice"
         (Sample.world [Sample.open_game])).

End SampleRules.

(** ** Order and subtraction of binary64 numbers

    The facts about [<?], [<=?] and [-] on floats that the pipeline relies
    on, derived from the specification of the primitive operations. *)

Module FloatOrder.

Ltac cmp_cases :=
  repeat match goal with
  | H : context [Z.compare ?a ?b] |- _ => destruct (Z.compare_spec a b)
  | |- context [Z.compare ?a ?b] => destruct (Z.compare_spec a b)
  | H : context [PosDef.Pos.compare_cont Eq ?a ?b] |- _ =>
      change (PosDef.Pos.compare_cont Eq a b) with (Pos.compare a b) in *;
      destruct (Pos.compare_spec a b)
  | |- context [PosDef.Pos.compare_cont Eq ?a ?b] =>
      change (PosDef.Pos.compare_cont Eq a b) with (Pos.compare a b) in *;
      destruct (Pos.compare_spec a b)
  end.

Lemma SFleb_trans (x y z : spec_float) :
  SFleb x y = true -> SFleb y z = true -> SFleb x z = true.
Proof.
  unfold SFleb, SFcompare.
  destruct x as [[]|[]| |[] mx ex], y as [[]|[]| |[] my ey], z as [[]|[]| |[] mz ez];
    try reflexivity; try discriminate;
    intros Hxy Hyz; cmp_cases; cbn [CompOpp] in *;
    try reflexivity; try discriminate; subst; try lia.
Qed.

Lemma SFleb_not_ltb (x y : spec_float) :
  SFleb x y = true -> SFltb y x = false.
Proof.
  unfold SFleb, SFltb, SFcompare.
  destruct x as [[]|[]| |[] mx ex], y as [[]|[]| |[] my ey];
    try reflexivity; try discriminate;
    intros Hxy; cmp_cases; cbn [CompOpp] in *;
    try reflexivity; try discriminate; subst; try lia.
Qed.

Lemma SFltb_total (x y : spec_float) :
  SFeqb x x = true -> SFeqb y y = true -> SFltb x y = false -> SFleb y x = true.
Proof.
  unfold SFeqb, SFleb, SFltb, SFcompare.
  destruct x as [[]|[]| |[] mx ex], y as [[]|[]| |[] my ey];
    try reflexivity; try discriminate;
    intros _ _ Hxy; cmp_cases; cbn [CompOpp] in *;
    try reflexivity; try discriminate; subst; try lia.
Qed.

Local Open Scope float_scope.

(** A number that is not below [c] is at least [c]; [x =? x] holds of every
    float but NaN. *)
Lemma ltb_false_leb (x c : float) :
  (x =? x) = true -> (c =? c) = true -> (x <? c) = false -> (c <=? x) = true.
Proof.
  rewrite !eqb_spec, ltb_spec, leb_spec. apply SFltb_total.
Qed.

Lemma leb_leb_not_ltb (a b x : float) :
  (a <=? b) = true -> (b <=? x) = true -> (x <? a) = false.
Proof.
  rewrite !leb_spec, ltb_spec. intros Hab Hbx.
  apply SFleb_not_ltb. exact (SFleb_trans _ _ _ Hab Hbx).
Qed.

Lemma SFsub_opp_opp (prec emax : Z) (a b : spec_float) :
  SFsub prec emax (SFopp a) (SFopp b) = SFsub prec emax b a.
Proof.
  destruct a as [[]|[]| |[] ma ea], b as [[]|[]| |[] mb eb]; try reflexivity;
    simpl; rewrite (Z.min_comm eb ea); f_equal; lia.
Qed.

Lemma sub_opp_opp (a b : float) : - a - (- b) = b - a.
Proof.
  apply Prim2SF_inj. rewrite !sub_spec, !opp_spec. apply SFsub_opp_opp.
Qed.

End FloatOrder.

(** ** The replay loop *)

Section Replay.

Variable chess : ChessLib.
Variable evaluate_position : nat -> string -> exception + EvaluationResult.

Lemma calls_ok_nil (from : nat) : calls_ok evaluate_position from [].
Proof. intros [|i] fen H; discriminate. Qed.

Lemma calls_ok_cons (from : nat) (fen : string) (position : EvaluationResult)
    (calls : list string) :
  evaluate_position from fen = inr position ->
  calls_ok evaluate_position (S from) calls ->
  calls_ok evaluate_position from (fen :: calls).
Proof.
  intros Hfen Hcalls [|i] fen' H; simpl in H.
  - injection H as <-. rewrite Nat.add_0_r. eauto.
  - rewrite Nat.add_succ_r. apply (Hcalls i fen' H).
Qed.

Lemma color_is_black (b : bool) :
  String.eqb (if b then "white" else "black") "black" = negb b.
Proof. destruct b; reflexivity. Qed.

(** The loop writes to no table, and when it ends normally every evaluation
    it asked for was answered and its result extends the accumulator with
    the annotations of the replayed plies. *)
Lemma annotate_moves_spec (game_id : string) (moves : list (Move chess)) :
  forall board n acc w r w',
    annotate_moves chess evaluate_position game_id board moves n acc w = (r, w') ->
    no_writes w w' /\
    db_requests w' = db_requests w /\
    error_log w' = error_log w /\
    exists calls,
      engine_calls w' = engine_calls w ++ calls /\
      match r with
      | Return rows =>
          calls_ok evaluate_position (List.length (engine_calls w)) calls /\
          exists new, rows = acc ++ new /\ replayed chess game_id board n moves new
      | Raise _ => True
      end.
Proof.
  induction moves as [|move moves IH]; intros board n acc w r w' Hrun.
  - injection Hrun as <- <-. repeat split.
    exists []. rewrite app_nil_r. split; [reflexivity|]. split.
    + apply calls_ok_nil.
    + exists []. rewrite app_nil_r. split; [reflexivity | constructor].
  - simpl in Hrun. unfold bind at 1 in Hrun. unfold stockfish_evaluate at 1 in Hrun.
    destruct (evaluate_position (List.length (engine_calls w)) (fen chess board))
      as [e|before] eqn:Hbefore.
    { injection Hrun as <- <-. repeat split.
      exists [fen chess board]. split; [reflexivity | exact I]. }
    unfold bind at 1 in Hrun. unfold stockfish_evaluate at 1 in Hrun.
    cbn [engine_calls games move_annotations db_requests error_log] in Hrun.
    destruct (evaluate_position (List.length (engine_calls w ++ [fen chess board]))
                (fen chess (push chess board move))) as [e|after] eqn:Hafter.
    { injection Hrun as <- <-. repeat split.
      exists [fen chess board; fen chess (push chess board move)].
      split; [|exact I]. cbn. rewrite <- app_assoc. reflexivity. }
    apply IH in Hrun. cbn in Hrun.
    destruct Hrun as ([Hg Hm] & Hdb & Hlog & calls & Hcalls & Hres).
    repeat split; try assumption.
    exists (fen chess board :: fen chess (push chess board move) :: calls).
    split. { rewrite Hcalls, <- !app_assoc. reflexivity. }
    destruct r as [rows|e]; [|exact I].
    destruct Hres as (Hok & new & -> & Hnew).
    replace (List.length ((engine_calls w ++ [fen chess board]) ++
                            [fen chess (push chess board move)]))
      with (S (S (List.length (engine_calls w)))) in Hok
      by (rewrite !length_app; simpl; lia).
    replace (List.length (engine_calls w ++ [fen chess board]))
      with (S (List.length (engine_calls w))) in Hafter
      by (rewrite length_app; simpl; lia).
    split.
    + eapply calls_ok_cons; [exact Hbefore|].
      eapply calls_ok_cons; [exact Hafter | exact Hok].
    + eexists. split. { rewrite <- app_assoc. reflexivity. }
      rewrite color_is_black in Hnew.
      constructor; try reflexivity.
      destruct (turn chess board); exact Hnew.
Qed.

Lemma replayed_length (game_id : string) (board : Board chess) (n : nat)
    (moves : list (Move chess)) (rows : list Annotation.t) :
  replayed chess game_id board n moves rows -> List.length rows = List.length moves.
Proof. induction 1; simpl; congruence. Qed.

End Replay.

(** ** Single-game annotation *)

(** Reads the fields of a world that is written out. *)
Ltac fields :=
  unfold no_writes; cbn [games move_annotations engine_calls error_log db_requests].

Section Annotate.

Variable chess : ChessLib.
Variable evaluate_position : nat -> string -> exception + EvaluationResult.
Variable db_down : nat -> bool.

Lemma bind_inv {A B : Type} (m : M A) (k : A -> M B) (w w' : World) (r : outcome B) :
  bind m k w = (r, w') ->
  (exists a w1, m w = (Return a, w1) /\ k a w1 = (r, w')) \/
  (exists e, m w = (Raise e, w') /\ r = Raise e).
Proof.
  unfold bind. destruct (m w) as [[a|e] w1]; intros H.
  - left. eauto.
  - right. injection H as <- <-. eauto.
Qed.

Lemma execute_inv {A : Type}
    (query : list Game.t -> list Annotation.t -> A * list Game.t * list Annotation.t)
    (w w' : World) (r : outcome A) :
  execute db_down query w = (r, w') ->
  db_requests w' = S (db_requests w) /\
  engine_calls w' = engine_calls w /\
  error_log w' = error_log w /\
  ((db_down (db_requests w) = true /\
    r = Raise (Error "database request failed") /\ no_writes w w') \/
   (db_down (db_requests w) = false /\
    r = Return (fst (fst (query (games w) (move_annotations w)))) /\
    games w' = snd (fst (query (games w) (move_annotations w))) /\
    move_annotations w' = snd (query (games w) (move_annotations w)))).
Proof.
  unfold execute. destruct (db_down (db_requests w)).
  - intros H. injection H as <- <-. cbn. repeat split. left. repeat split.
  - destruct (query (games w) (move_annotations w)) as [[a gs] rs].
    intros H. injection H as <- <-. cbn. repeat split. right. repeat split.
Qed.

(** The insertion loop stores a prefix of the rows, all of them unless a
    request fails. *)
Lemma insert_annotations_spec (rows : list Annotation.t) :
  forall w r w',
    insert_annotations db_down rows w = (r, w') ->
    games w' = games w /\
    engine_calls w' = engine_calls w /\
    error_log w' = error_log w /\
    db_requests w <= db_requests w' /\
    match r with
    | Return _ => move_annotations w' = move_annotations w ++ rows
    | Raise e =>
        e = Error "database request failed" /\
        exists k i,
          k < List.length rows /\
          move_annotations w' = move_annotations w ++ firstn k rows /\
          db_requests w <= i /\ db_down i = true
    end.
Proof.
  induction rows as [|row rows IH]; intros w r w' Hrun.
  - injection Hrun as <- <-. rewrite app_nil_r. repeat split. lia.
  - cbn [insert_annotations] in Hrun.
    apply bind_inv in Hrun as [(a & w1 & Hins & Hrest)|(e & Hins & ->)].
    + apply execute_inv in Hins as (Hn & Hc & Hl & [(_ & Hr & _)|(_ & _ & Hg & Hm)]);
        [discriminate|].
      cbn in Hg, Hm.
      apply IH in Hrest as (Hg' & Hc' & Hl' & Hn' & Hr').
      repeat split; try congruence; try lia.
      destruct r as [u|e].
      * rewrite Hr', Hm, <- app_assoc. reflexivity.
      * destruct Hr' as (-> & k & i & Hk & Hrows & Hi & Hdown).
        split; [reflexivity|]. exists (S k), i. cbn.
        repeat split; try lia; try assumption.
        rewrite Hrows, Hm, <- app_assoc. reflexivity.
    + apply execute_inv in Hins as (Hn & Hc & Hl & [(Hdown & Hr & Hg & Hm)|(_ & Hr & _)]);
        [|discriminate].
      injection Hr as ->.
      repeat split; try assumption; try lia.
      exists 0, (db_requests w). cbn. rewrite app_nil_r.
      repeat split; try assumption; lia.
Qed.

Lemma games_with_id_owner (game_id : string) (w : World) (game : Game.t)
    (rest : list Game.t) :
  games_with_id game_id (games w) = game :: rest ->
  lookup_game game_id w = Some game.
Proof. unfold lookup_game. intros ->. reflexivity. Qed.

(** Every call of [annotate_game] ends in one of the ways listed by
    [annotate_run]. *)
Lemma annotate_game_run (game_id user_id : string) (w : World) :
  annotate_run chess evaluate_position db_down game_id user_id w
    (fst (annotate_game chess evaluate_position db_down game_id user_id w))
    (snd (annotate_game chess evaluate_position db_down game_id user_id w)).
Proof.
  unfold annotate_game, try_except.
  destruct (annotate_game_body chess evaluate_position db_down game_id user_id w)
    as [rb wb] eqn:Hbody.
  unfold annotate_game_body in Hbody.
  assert (Hrefuse : forall e, no_writes w wb -> engine_calls wb = engine_calls w ->
            error_log wb = error_log w ->
            annotate_run chess evaluate_position db_down game_id user_id w
              (Raise (HTTPException 500 ("Error annotating game: " ++ str e)))
              (mkWorld (games wb) (move_annotations wb) (db_requests wb)
                 (engine_calls wb)
                 (error_log wb ++ ["Error annotating game: " ++ str e]%string))).
  { intros e [Hg Hm] Hc Hl.
    apply run_refused; unfold no_writes;
      cbn [games move_annotations engine_calls error_log]; [split| |]; congruence. }
  apply bind_inv in Hbody as [(found & w1 & Hsel & Hbody)|(e & Hsel & ->)].
  2:{ apply execute_inv in Hsel as (_ & Hc & Hl & [(_ & _ & Hnw)|(_ & Hr & _)]);
        [|discriminate].
      cbn -[String.append str]. apply Hrefuse; assumption. }
  apply execute_inv in Hsel as (Hn1 & Hc1 & Hl1 & [(_ & Hr & _)|(_ & Hr & Hg1 & Hm1)]);
    [discriminate|].
  cbn in Hr, Hg1, Hm1. injection Hr as ->.
  destruct (games_with_id game_id (games w)) as [|game rest] eqn:Hfound.
  { injection Hbody as <- <-. cbn -[String.append str].
    apply Hrefuse; [split|..]; assumption. }
  apply games_with_id_owner in Hfound.
  destruct (String.eqb (Game.user_id game) user_id) eqn:Howner; cbn [negb] in Hbody.
  2:{ injection Hbody as <- <-. cbn -[String.append str].
      apply Hrefuse; [split|..]; assumption. }
  apply String.eqb_eq in Howner.
  destruct (truthy (Game.analyzed game)) eqn:Hanalyzed.
  { apply bind_inv in Hbody as [(rows & w2 & Hsel & Hbody)|(e & Hsel & ->)];
      apply execute_inv in Hsel as (Hn2 & Hc2 & Hl2 & Hsel).
    - destruct Hsel as [(_ & Hr & _)|(_ & Hr & Hg2 & Hm2)]; [discriminate|].
      cbn in Hr, Hg2, Hm2. injection Hr as ->. injection Hbody as <- <-.
      cbn [fst snd]. rewrite Hm1.
      apply (run_stored _ _ _ _ _ _ game); try assumption; try congruence.
      split; congruence.
    - destruct Hsel as [(_ & _ & [Hg2 Hm2])|(_ & Hr & _)]; [|discriminate].
      cbn -[String.append str]. apply Hrefuse; [split|..]; congruence. }
  destruct (pgn_or_moves_only game) as [[|c text]|] eqn:Htext;
    try (injection Hbody as <- <-; cbn -[String.append str];
         apply Hrefuse; [split|..]; assumption).
  destruct (read_game chess (String c text)) as [chess_game|] eqn:Hread;
    try (injection Hbody as <- <-; cbn -[String.append str];
         apply Hrefuse; [split|..]; assumption).
  assert (Hfresh : to_annotate chess game_id user_id w chess_game).
  { exists game, (String c text). repeat split; assumption. }
  apply bind_inv in Hbody as [(rows & w2 & Hloop & Hbody)|(e & Hloop & ->)];
    apply annotate_moves_spec in Hloop
      as ([Hg2 Hm2] & Hn2 & Hl2 & calls & Hc2 & Hloop).
  2:{ cbn -[String.append str].
      apply (run_engine_failed _ _ _ _ _ _ chess_game (str e) calls);
        fields; try assumption; try congruence. split; congruence. }
  destruct Hloop as (Hok & new & -> & Hnew). cbn [app] in Hbody.
  rewrite Hc1 in Hc2, Hok.
  apply bind_inv in Hbody as [([] & w3 & Hins & Hbody)|(e & Hins & ->)];
    apply insert_annotations_spec in Hins as (Hg3 & Hc3 & Hl3 & Hn3 & Hins).
  2:{ destruct Hins as (-> & k & i & Hk & Hrows & Hi & Hdown).
      cbn -[String.append str].
      apply (run_write_failed _ _ _ _ _ _ chess_game _ calls new k i);
        fields; try assumption; try congruence; try lia. }
  apply bind_inv in Hbody as [([] & w4 & Hupd & Hbody)|(e & Hupd & ->)];
    apply execute_inv in Hupd as (Hn4 & Hc4 & Hl4 & Hupd).
  - destruct Hupd as [(_ & Hr & _)|(_ & _ & Hg4 & Hm4)]; [discriminate|].
    cbn in Hg4, Hm4. injection Hbody as <- <-. cbn [fst snd].
    apply (run_annotated _ _ _ _ _ _ chess_game calls new);
      try assumption; try congruence.
  - destruct Hupd as [(Hdown & Hr & [Hg4 Hm4])|(_ & Hr & _)]; [|discriminate].
    injection Hr as ->. cbn -[String.append str].
    apply (run_write_failed _ _ _ _ _ _ chess_game _ calls new
             (List.length new) (db_requests w3));
      fields; try assumption; try congruence; try lia.
    rewrite firstn_all. congruence.
Qed.

(** The same, for a call whose result is known. *)
Lemma annotate_game_run_of (game_id user_id : string) (w w' : World)
    (r : outcome GameAnnotationResponse) :
  annotate_game chess evaluate_position db_down game_id user_id w = (r, w') ->
  annotate_run chess evaluate_position db_down game_id user_id w r w'.
Proof.
  intros H. pose proof (annotate_game_run game_id user_id w) as Hrun.
  rewrite H in Hrun. exact Hrun.
Qed.

End Annotate.

(** ** Classification *)

Section ClassificationFacts.

Local Open Scope float_scope.

(** C3: [classify_move] follows the threshold table, each row closed at its
    lower bound and open at its upper bound; the rows cover every number, and
    the boundary values fall where the table puts them. *)
Theorem classify_move_table (x : float) :
  ((x <? -2.0) = true -> classify_move x = "blunder") /\
  ((-2.0 <=? x) = true -> (x <? -1.0) = true -> classify_move x = "mistake") /\
  ((-1.0 <=? x) = true -> (x <? -0.5) = true -> classify_move x = "inaccuracy") /\
  ((-0.5 <=? x) = true -> (x <? 0.1) = true -> classify_move x = "good") /\
  ((0.1 <=? x) = true -> (x <? 0.5) = true -> classify_move x = "great") /\
  ((0.5 <=? x) = true -> classify_move x = "excellent") /\
  ((x =? x) = true ->
     (x <? -2.0) = true \/
     ((-2.0 <=? x) = true /\ (x <? -1.0) = true) \/
     ((-1.0 <=? x) = true /\ (x <? -0.5) = true) \/
     ((-0.5 <=? x) = true /\ (x <? 0.1) = true) \/
     ((0.1 <=? x) = true /\ (x <? 0.5) = true) \/
     (0.5 <=? x) = true) /\
  classify_move (-2.0) = "mistake" /\
  classify_move (-2.0001) = "blunder" /\
  classify_move 0.1 = "great" /\
  classify_move 0.0999 = "good" /\
  classify_move 0.5 = "excellent" /\
  classify_move 0.4999 = "great".
Proof.
  assert (Hnot : forall a b, (a <=? b) = true -> (b <=? x) = true -> (x <? a) = false)
    by (intros a b; apply FloatOrder.leb_leb_not_ltb).
  unfold classify_move.
  repeat match goal with |- _ /\ _ => split end; try reflexivity.
  - intros ->. reflexivity.
  - intros Hlo ->. rewrite (Hnot (-2.0) (-2.0)) by (reflexivity || assumption).
    reflexivity.
  - intros Hlo ->.
    rewrite (Hnot (-2.0) (-1.0)), (Hnot (-1.0) (-1.0)) by (reflexivity || assumption).
    reflexivity.
  - intros Hlo ->.
    rewrite (Hnot (-2.0) (-0.5)), (Hnot (-1.0) (-0.5)), (Hnot (-0.5) (-0.5))
      by (reflexivity || assumption).
    reflexivity.
  - intros Hlo ->.
    rewrite (Hnot (-2.0) 0.1), (Hnot (-1.0) 0.1), (Hnot (-0.5) 0.1), (Hnot 0.1 0.1)
      by (reflexivity || assumption).
    reflexivity.
  - intros Hlo.
    rewrite (Hnot (-2.0) 0.5), (Hnot (-1.0) 0.5), (Hnot (-0.5) 0.5), (Hnot 0.1 0.5),
      (Hnot 0.5 0.5) by (reflexivity || assumption).
    reflexivity.
  - intros Hnum.
    assert (Hge : forall c, (c =? c) = true -> (x <? c) = false -> (c <=? x) = true)
      by (intros c; apply FloatOrder.ltb_false_leb; exact Hnum).
    destruct (x <? -2.0) eqn:H1; [tauto|]. right.
    destruct (x <? -1.0) eqn:H2; [left; split; [apply Hge|]; trivial|]. right.
    destruct (x <? -0.5) eqn:H3; [left; split; [apply Hge|]; trivial|]. right.
    destruct (x <? 0.1) eqn:H4; [left; split; [apply Hge|]; trivial|]. right.
    destruct (x <? 0.5) eqn:H5; [left; split; [apply Hge|]; trivial|]. right.
    apply Hge; trivial.
Qed.

(** The table read at a number inside the second row. *)
Lemma classify_move_table_witness : classify_move (-1.5) = "mistake".
Proof.
  apply (proj1 (proj2 (classify_move_table (-1.5)))); reflexivity.
Defined.

End ClassificationFacts.

(** ** Properties of a replayed game *)

Section Replayed.

Variable chess : ChessLib.
Variable game_id : string.

Lemma evaluation_change_of_color (c : string) (before after : float) :
  (c = "white" -> evaluation_change_of c before after = (after - before)%float) /\
  (c = "black" -> evaluation_change_of c before after = (before - after)%float).
Proof.
  unfold evaluation_change_of. split; intros ->; cbn [String.eqb Ascii.eqb Bool.eqb].
  - reflexivity.
  - cbn. apply FloatOrder.sub_opp_opp.
Qed.

Lemma replayed_Forall (board : Board chess) (n : nat) (moves : list (Move chess))
    (rows : list Annotation.t) :
  replayed chess game_id board n moves rows ->
  Forall (fun r =>
            Annotation.game_id r = game_id /\
            (color (Annotation.fields r) = "white" \/
             color (Annotation.fields r) = "black") /\
            evaluation_change (Annotation.fields r) =
              evaluation_change_of (color (Annotation.fields r))
                (evaluation_before (Annotation.fields r))
                (evaluation_after (Annotation.fields r)) /\
            classification (Annotation.fields r) =
              classify_move (evaluation_change (Annotation.fields r)) /\
            is_book_move (Annotation.fields r) = false)
         rows.
Proof.
  induction 1 as [|board n move moves r rows Hid Hn Hsan Huci Hcolor]; constructor.
  - repeat split; try assumption.
    rewrite Hcolor. destruct (turn chess board); auto.
  - assumption.
Qed.

Lemma replayed_head (board : Board chess) (n : nat) (moves : list (Move chess))
    (rows : list Annotation.t) (a : MoveAnnotation) :
  replayed chess game_id board n moves rows ->
  nth_error (map Annotation.fields rows) 0 = Some a ->
  move_number a = n /\
  color a = (if turn chess board then "white" else "black") /\
  fen_before a = fen chess board.
Proof.
  destruct 1; cbn; intros Ha; [discriminate|].
  injection Ha as <-. auto.
Qed.

Lemma replayed_continuous (board : Board chess) (n : nat)
    (moves : list (Move chess)) (rows : list Annotation.t) :
  replayed chess game_id board n moves rows ->
  continuous (map Annotation.fields rows).
Proof.
  induction 1 as [|board n move moves r rows Hid Hn Hsan Huci Hcolor Hbefore Hafter
                    Hchange Hclass Hbook Hrest IH];
    intros i a b Ha Hb.
  - destruct i; discriminate.
  - destruct i as [|i].
    + cbn in Ha. injection Ha as <-.
      change (nth_error (map Annotation.fields rows) 0 = Some b) in Hb.
      apply (replayed_head _ _ _ _ _ Hrest) in Hb as (_ & _ & ->).
      exact Hafter.
    + exact (IH i a b Ha Hb).
Qed.

(** The rows of a replayed game all belong to it and come in the order of
    their move numbers, so reading them back by move number keeps them. *)
Lemma replayed_ordered (board : Board chess) (n : nat) (moves : list (Move chess))
    (rows : list Annotation.t) :
  replayed chess game_id board n moves rows ->
  Forall (fun r => n <= move_number (Annotation.fields r)) rows /\
  order_by_move_number rows = rows /\
  rows_of_game game_id rows = rows.
Proof.
  induction 1 as [|board n move moves r rows Hid Hn Hsan Huci Hcolor Hbefore Hafter
                    Hchange Hclass Hbook Hrest (Hfrom & Hsorted & Hmine)].
  - repeat split. constructor.
  - assert (Hge : Forall (fun r' => n <= move_number (Annotation.fields r')) rows).
    { eapply Forall_impl; [|exact Hfrom]. cbn beta. intros r' Hr'.
      destruct (turn chess board); lia. }
    repeat split.
    + constructor; [lia | exact Hge].
    + unfold order_by_move_number in *. cbn [fold_right]. rewrite Hsorted.
      destruct rows as [|r' rows]; [reflexivity|]. cbn [insert_by_move_number].
      inversion Hge as [|? ? Hr' _]; subst.
      rewrite (proj2 (Nat.leb_le _ _) Hr'). reflexivity.
    + unfold rows_of_game in *. cbn [filter]. rewrite Hid, String.eqb_refl, Hmine.
      reflexivity.
Qed.

Hypothesis turn_push :
  forall board move, turn chess (push chess board move) = negb (turn chess board).

Lemma replayed_alternates (board : Board chess) (n : nat)
    (moves : list (Move chess)) (rows : list Annotation.t) :
  replayed chess game_id board n moves rows ->
  alternates (map Annotation.fields rows).
Proof.
  induction 1 as [|board n move moves r rows Hid Hn Hsan Huci Hcolor Hbefore Hafter
                    Hchange Hclass Hbook Hrest IH];
    intros i a b Ha Hb.
  - destruct i; discriminate.
  - destruct i as [|i].
    + cbn in Ha. injection Ha as <-.
      change (nth_error (map Annotation.fields rows) 0 = Some b) in Hb.
      apply (replayed_head _ _ _ _ _ Hrest) in Hb as (-> & -> & _).
      rewrite Hcolor, Hn, turn_push.
      destruct (turn chess board); cbn; split; (discriminate || reflexivity).
    + exact (IH i a b Ha Hb).
Qed.

(** The color and the number of the ply at index [i], whoever moves first. *)
Lemma replayed_numbering (board : Board chess) (n : nat)
    (moves : list (Move chess)) (rows : list Annotation.t) :
  replayed chess game_id board n moves rows ->
  forall i a, nth_error (map Annotation.fields rows) i = Some a ->
    color a = (if Bool.eqb (turn chess board) (Nat.even i)
               then "white" else "black") /\
    move_number a = n + (i + (if turn chess board then 0 else 1)) / 2.
Proof.
  induction 1 as [|board n move moves r rows Hid Hn Hsan Huci Hcolor Hbefore Hafter
                    Hchange Hclass Hbook Hrest IH];
    intros i a Ha.
  - destruct i; discriminate.
  - destruct i as [|i].
    + cbn in Ha. injection Ha as <-. rewrite Hcolor, Hn.
      destruct (turn chess board); cbn; split; (reflexivity || lia).
    + cbn [map nth_error] in Ha. apply IH in Ha as [Hc Hm].
      rewrite Hc, Hm, turn_push. rewrite Nat.even_succ, <- Nat.negb_even.
      destruct (turn chess board), (Nat.even i); cbn [negb Bool.eqb]; split;
        try reflexivity.
      all: try (replace (S i + 0) with (i + 1) by lia; reflexivity).
      all: replace (S i + 1) with (i + 0 + 1 * 2) by lia;
        rewrite Nat.div_add by lia; lia.
Qed.

End Replayed.

(** ** Freshly produced annotation sets *)

Section Produced.

Variable chess : ChessLib.
Variable evaluate_position : nat -> string -> exception + EvaluationResult.
Variable db_down : nat -> bool.

(** A successful call on a game that is not marked analyzed replays the game,
    stores the rows, marks the game and answers with the rows. *)
Lemma annotate_game_fresh (game_id user_id : string) (w w' : World)
    (resp : GameAnnotationResponse) (game : Game.t) :
  lookup_game game_id w = Some game ->
  truthy (Game.analyzed game) = false ->
  annotate_game chess evaluate_position db_down game_id user_id w = (Return resp, w') ->
  exists text chess_game rows,
    Game.user_id game = user_id /\
    pgn_or_moves_only game = Some text /\
    read_game chess text = Some chess_game /\
    replayed chess game_id (game_board chess chess_game) 1
      (mainline chess chess_game) rows /\
    resp = response_of game_id rows /\
    move_annotations w' = move_annotations w ++ rows /\
    games w' = set_analyzed game_id (games w).
Proof.
  intros Hgame Hfalse Hrun. apply annotate_game_run_of in Hrun.
  inversion Hrun as [| game' ? Hgame' _ Htrue | | | chess_game calls rows ? Hto]; subst.
  - congruence.
  - destruct Hto as (game' & text & Hgame' & Howner & _ & Htext & Hread).
    assert (game' = game) as -> by congruence.
    exists text, chess_game, rows. repeat split; assumption.
Qed.

(** C4: in a freshly produced annotation set the evaluation change of every
    ply is taken from the side of the player who moved, after minus before
    for White and before minus after for Black, and it is what the ply is
    classified by; a Black move from 0.5 to 0.2 is a change of 0.3, "great". *)
Theorem evaluation_change_from_movers_side (game_id user_id : string)
    (w w' : World) (resp : GameAnnotationResponse) (game : Game.t) :
  lookup_game game_id w = Some game ->
  truthy (Game.analyzed game) = false ->
  annotate_game chess evaluate_position db_down game_id user_id w = (Return resp, w') ->
  Forall from_movers_side (annotations resp) /\
  evaluation_change_of "black" 0.5 0.2 = 0.3%float /\
  evaluation_change_of "white" 0.0 0.3 = 0.3%float /\
  classify_move 0.3 = "great".
Proof.
  intros Hgame Hfalse Hrun.
  destruct (annotate_game_fresh _ _ _ _ _ _ Hgame Hfalse Hrun)
    as (text & chess_game & rows & _ & _ & _ & Hrows & -> & _).
  split; [|repeat split; reflexivity].
  cbn [annotations response_of]. apply Forall_map.
  eapply Forall_impl; [|exact (replayed_Forall _ _ _ _ _ _ Hrows)].
  intros r (_ & Hcolor & Hchange & Hclass & _). unfold from_movers_side.
  repeat split; try assumption.
  - intros Hwhite. rewrite Hchange.
    apply (proj1 (evaluation_change_of_color _ _ _) Hwhite).
  - intros Hblack. rewrite Hchange.
    apply (proj2 (evaluation_change_of_color _ _ _) Hblack).
Qed.

(** C7: in a freshly produced annotation set the position after a ply is the
    position before the next one. *)
Theorem produced_positions_continuous (game_id user_id : string)
    (w w' : World) (resp : GameAnnotationResponse) (game : Game.t) :
  lookup_game game_id w = Some game ->
  truthy (Game.analyzed game) = false ->
  annotate_game chess evaluate_position db_down game_id user_id w = (Return resp, w') ->
  continuous (annotations resp).
Proof.
  intros Hgame Hfalse Hrun.
  destruct (annotate_game_fresh _ _ _ _ _ _ Hgame Hfalse Hrun)
    as (text & chess_game & rows & _ & _ & _ & Hrows & -> & _).
  exact (replayed_continuous _ _ _ _ _ _ Hrows).
Qed.

(** C8, as the code has it: colors alternate from the side to move in the
    starting position, the first ply is numbered 1 and the number goes up
    after each ply of Black; when White moves first the colors start with
    "white" and the [k]-th ply is numbered [ceil(k/2)]. *)
Theorem produced_colors_and_move_numbers
    (turn_push : forall board move,
        turn chess (push chess board move) = negb (turn chess board))
    (game_id user_id : string) (w w' : World) (resp : GameAnnotationResponse)
    (game : Game.t) (text : string) (chess_game : PgnGame chess) :
  lookup_game game_id w = Some game ->
  truthy (Game.analyzed game) = false ->
  pgn_or_moves_only game = Some text ->
  read_game chess text = Some chess_game ->
  annotate_game chess evaluate_position db_down game_id user_id w = (Return resp, w') ->
  alternates (annotations resp) /\
  (forall a, nth_error (annotations resp) 0 = Some a ->
     move_number a = 1 /\
     color a = (if turn chess (game_board chess chess_game)
                then "white" else "black")) /\
  (turn chess (game_board chess chess_game) = true ->
   starts_white_numbered (annotations resp)).
Proof.
  intros Hgame Hfalse Htext Hread Hrun.
  destruct (annotate_game_fresh _ _ _ _ _ _ Hgame Hfalse Hrun)
    as (text' & chess_game' & rows & _ & Htext' & Hread' & Hrows & -> & _).
  assert (text' = text) as -> by congruence.
  assert (chess_game' = chess_game) as -> by congruence.
  cbn [annotations response_of]. split; [|split].
  - exact (replayed_alternates _ _ turn_push _ _ _ _ Hrows).
  - intros a Ha.
    destruct (replayed_head _ _ _ _ _ _ _ Hrows Ha) as (Hn & Hc & _).
    split; assumption.
  - intros Hwhite i a Ha.
    destruct (replayed_numbering _ _ turn_push _ _ _ _ Hrows i a Ha) as [Hc Hm].
    rewrite Hc, Hm, Hwhite. split.
    + destruct (Nat.even i); reflexivity.
    + unfold ceil_half.
      replace (S i + 1) with (i + 0 + 1 * 2) by lia.
      rewrite Nat.div_add by lia. lia.
Qed.

(** C9: every row [annotate_game] stores, and every annotation of a freshly
    produced set, has [is_book_move] false. *)
Theorem is_book_move_always_false (game_id user_id : string) (w w' : World)
    (r : outcome GameAnnotationResponse) :
  annotate_game chess evaluate_position db_down game_id user_id w = (r, w') ->
  (exists new,
     move_annotations w' = move_annotations w ++ new /\
     Forall (fun row => is_book_move (Annotation.fields row) = false) new) /\
  (forall game resp,
     lookup_game game_id w = Some game ->
     truthy (Game.analyzed game) = false ->
     r = Return resp ->
     Forall (fun a => is_book_move a = false) (annotations resp)).
Proof.
  intros Hrun. split.
  - apply annotate_game_run_of in Hrun.
    assert (Hbook : forall chess_game rows,
              replayed chess game_id (game_board chess chess_game) 1
                (mainline chess chess_game) rows ->
              Forall (fun row => is_book_move (Annotation.fields row) = false) rows).
    { intros chess_game rows Hrows.
      eapply Forall_impl; [|exact (replayed_Forall _ _ _ _ _ _ Hrows)].
      intros row H. apply H. }
    inversion Hrun as [? ? [_ Hm] | ? ? _ _ _ [_ Hm] | ? ? ? ? _ [_ Hm]
                       | chess_game ? ? rows k ? ? _ _ _ Hrows _ Hm
                       | chess_game ? rows ? _ _ _ Hrows Hm]; subst.
    + exists []. rewrite app_nil_r. auto.
    + exists []. rewrite app_nil_r. auto.
    + exists []. rewrite app_nil_r. auto.
    + exists (firstn k rows). split; [assumption|].
      pose proof (Hbook _ _ Hrows) as Hall.
      rewrite <- (firstn_skipn k rows) in Hall.
      apply Forall_app in Hall. apply Hall.
    + exists rows. split; [assumption | exact (Hbook _ _ Hrows)].
  - intros game resp Hgame Hfalse ->.
    destruct (annotate_game_fresh _ _ _ _ _ _ Hgame Hfalse Hrun)
      as (text & chess_game & rows & _ & _ & _ & Hrows & -> & _).
    cbn [annotations response_of]. apply Forall_map.
    eapply Forall_impl; [|exact (replayed_Forall _ _ _ _ _ _ Hrows)].
    intros row H. apply H.
Qed.

End Produced.

(** ** Stored sets, failures and persistence *)

Section Stored.

Variable chess : ChessLib.
Variable evaluate_position : nat -> string -> exception + EvaluationResult.
Variable db_down : nat -> bool.

Lemma lookup_game_inv (game_id : string) (w : World) (game : Game.t) :
  lookup_game game_id w = Some game ->
  exists rest, games_with_id game_id (games w) = game :: rest.
Proof.
  unfold lookup_game. destruct (games_with_id game_id (games w)) as [|g rest];
    intros H; [discriminate|]. injection H as ->. eauto.
Qed.

(** The call on a stored set, when the database answers both requests. *)
Lemma annotate_game_stored (game_id user_id : string) (w : World) (game : Game.t) :
  lookup_game game_id w = Some game ->
  Game.user_id game = user_id ->
  truthy (Game.analyzed game) = true ->
  db_down (db_requests w) = false ->
  db_down (S (db_requests w)) = false ->
  annotate_game chess evaluate_position db_down game_id user_id w =
    (Return (response_of game_id (persisted game_id w)),
     mkWorld (games w) (move_annotations w) (S (S (db_requests w)))
             (engine_calls w) (error_log w)).
Proof.
  intros Hgame Howner Htrue Hdb0 Hdb1.
  apply lookup_game_inv in Hgame as [rest Hfound].
  unfold annotate_game, try_except, annotate_game_body, bind at 1,
    select_game, execute.
  rewrite Hdb0, Hfound, Howner, String.eqb_refl, Htrue. cbn [negb].
  unfold bind, select_annotations, execute.
  cbn [db_requests games move_annotations engine_calls error_log].
  rewrite Hdb1. reflexivity.
Qed.

(** The set a first call produces is the set a later call reads back, when
    the game had no stored row before. *)
Lemma produced_set_is_read_back (game_id user_id : string) (w w1 : World)
    (resp : GameAnnotationResponse) (game : Game.t) :
  lookup_game game_id w = Some game ->
  truthy (Game.analyzed game) = false ->
  rows_of_game game_id (move_annotations w) = [] ->
  annotate_game chess evaluate_position db_down game_id user_id w = (Return resp, w1) ->
  db_down (db_requests w1) = false ->
  db_down (S (db_requests w1)) = false ->
  exists w2,
    annotate_game chess evaluate_position db_down game_id user_id w1 = (Return resp, w2) /\
    no_writes w1 w2 /\ engine_calls w2 = engine_calls w1.
Proof.
  intros Hgame Hfalse Hnone Hrun Hdb0 Hdb1.
  destruct (annotate_game_fresh _ _ _ _ _ _ _ _ _ Hgame Hfalse Hrun)
    as (text & chess_game & rows & Howner & _ & _ & Hrows & -> & Hm & Hg).
  destruct (replayed_ordered _ _ _ _ _ _ Hrows) as (_ & Hsorted & Hmine).
  assert (Hgame1 : lookup_game game_id w1 = Some (mark game)).
  { apply lookup_game_inv in Hgame as [rest Hfound].
    unfold lookup_game. rewrite Hg.
    unfold games_with_id, set_analyzed in *.
    clear - Hfound. revert game rest Hfound.
    induction (games w) as [|g gs IH]; intros game rest Hfound; [discriminate|].
    cbn [map filter] in *.
    destruct (String.eqb (Game.id g) game_id) eqn:Hid.
    - injection Hfound as -> _. cbn [mark Game.id]. rewrite Hid. reflexivity.
    - rewrite Hid. exact (IH _ _ Hfound). }
  assert (Hstored : persisted game_id w1 = rows).
  { unfold persisted. rewrite Hm. unfold rows_of_game in *.
    rewrite filter_app, Hnone, Hmine. exact Hsorted. }
  eexists. split.
  - rewrite <- Hstored.
    exact (annotate_game_stored _ _ _ _ Hgame1 Howner eq_refl Hdb0 Hdb1).
  - split; [split; reflexivity | reflexivity].
Qed.

(** C1: for a game marked analyzed and asked for by its owner,
    [annotate_game] calls the engine for nothing and writes nothing; when
    the database answers it returns the stored annotation set, and a second
    call returns the same set, again without engine call or write. *)
Theorem analyzed_game_returns_stored_set (game_id user_id : string) (w : World)
    (game : Game.t) :
  lookup_game game_id w = Some game ->
  Game.user_id game = user_id ->
  Game.analyzed game = Some true ->
  (forall r w',
     annotate_game chess evaluate_position db_down game_id user_id w = (r, w') ->
     no_writes w w' /\ engine_calls w' = engine_calls w) /\
  ((forall i, i < 4 -> db_down (db_requests w + i) = false) ->
   exists w1 w2,
     annotate_game chess evaluate_position db_down game_id user_id w =
       (Return (response_of game_id (persisted game_id w)), w1) /\
     no_writes w w1 /\ engine_calls w1 = engine_calls w /\
     error_log w1 = error_log w /\
     annotate_game chess evaluate_position db_down game_id user_id w1 =
       (Return (response_of game_id (persisted game_id w)), w2) /\
     no_writes w1 w2 /\ engine_calls w2 = engine_calls w1 /\
     error_log w2 = error_log w1).
Proof.
  intros Hgame Howner Hflag.
  assert (Htrue : truthy (Game.analyzed game) = true) by (rewrite Hflag; reflexivity).
  split.
  - intros r w' Hrun. apply annotate_game_run_of in Hrun.
    assert (Hno : forall chess_game,
              ~ to_annotate chess game_id user_id w chess_game).
    { intros chess_game (game' & text & Hgame' & _ & Hfalse & _).
      assert (game' = game) as -> by congruence. congruence. }
    inversion Hrun as [| | chess_game ? ? ? Hto | chess_game ? ? ? ? ? ? Hto
                       | chess_game ? ? ? Hto]; subst;
      try (exfalso; exact (Hno _ Hto)); split; assumption.
  - intros Hdb.
    pose proof (Hdb 0 ltac:(lia)) as Hdb0. pose proof (Hdb 1 ltac:(lia)) as Hdb1.
    pose proof (Hdb 2 ltac:(lia)) as Hdb2. pose proof (Hdb 3 ltac:(lia)) as Hdb3.
    rewrite Nat.add_0_r in Hdb0.
    replace (db_requests w + 1) with (S (db_requests w)) in Hdb1 by lia.
    replace (db_requests w + 2) with (S (S (db_requests w))) in Hdb2 by lia.
    replace (db_requests w + 3) with (S (S (S (db_requests w)))) in Hdb3 by lia.
    exists (mkWorld (games w) (move_annotations w) (S (S (db_requests w)))
              (engine_calls w) (error_log w)),
           (mkWorld (games w) (move_annotations w) (S (S (S (S (db_requests w)))))
              (engine_calls w) (error_log w)).
    split.
    { exact (annotate_game_stored _ _ _ _ Hgame Howner Htrue Hdb0 Hdb1). }
    split; [split; reflexivity|]. split; [reflexivity|]. split; [reflexivity|].
    split; [|split; [split; reflexivity | split; reflexivity]].
    exact (annotate_game_stored game_id user_id
             (mkWorld (games w) (move_annotations w) (S (S (db_requests w)))
                (engine_calls w) (error_log w))
             game Hgame Howner Htrue Hdb2 Hdb3).
Qed.

(** C5, as the code has it: whatever goes wrong, [annotate_game] answers 500;
    the 404 of a missing game and the 403 of a foreign game are raised inside
    the [try] and caught by its [except Exception]. *)
Theorem annotate_game_failures_are_500 (game_id user_id : string) (w : World) :
  (forall e w',
     annotate_game chess evaluate_position db_down game_id user_id w = (Raise e, w') ->
     exists detail, e = HTTPException 500 detail) /\
  (db_down (db_requests w) = false ->
   lookup_game game_id w = None ->
   fst (annotate_game chess evaluate_position db_down game_id user_id w) =
     Raise (HTTPException 500 "Error annotating game: 404: Game not found")) /\
  (db_down (db_requests w) = false ->
   forall game,
     lookup_game game_id w = Some game ->
     Game.user_id game <> user_id ->
     fst (annotate_game chess evaluate_position db_down game_id user_id w) =
       Raise (HTTPException 500
                "Error annotating game: 403: Unauthorized access to this game") /\
     no_writes w (snd (annotate_game chess evaluate_position db_down game_id user_id w))).
Proof.
  split; [|split].
  - intros e w' Hrun. apply annotate_game_run_of in Hrun.
    inversion Hrun; subst; eauto.
  - intros Hdb0 Hnone.
    unfold annotate_game, try_except, annotate_game_body, bind at 1,
      select_game, execute.
    rewrite Hdb0. unfold lookup_game in Hnone.
    destruct (games_with_id game_id (games w)); [reflexivity | discriminate].
  - intros Hdb0 game Hgame Hother.
    apply lookup_game_inv in Hgame as [rest Hfound].
    apply String.eqb_neq in Hother.
    assert (Hrun :
              annotate_game chess evaluate_position db_down game_id user_id w =
                (Raise (HTTPException 500
                          "Error annotating game: 403: Unauthorized access to this game"),
                 mkWorld (games w) (move_annotations w) (S (db_requests w))
                   (engine_calls w)
                   (error_log w ++
                    ["Error annotating game: 403: Unauthorized access to this game"]))).
    { unfold annotate_game, try_except, annotate_game_body, bind at 1,
        select_game, execute.
      rewrite Hdb0, Hfound, Hother. reflexivity. }
    rewrite Hrun. split; [reflexivity | split; reflexivity].
Qed.

(** C2, as the code has it: an evaluation that fails aborts the call with
    nothing written; the flag is set only once every row of the game is
    stored; the rows a call stores are a prefix of the annotation set, one
    row per ply, and the whole set when no database request fails. *)
Theorem annotation_set_persistence (game_id user_id : string) (w w' : World)
    (r : outcome GameAnnotationResponse) :
  annotate_game chess evaluate_position db_down game_id user_id w = (r, w') ->
  ((exists i fen e,
      List.length (engine_calls w) <= i /\
      nth_error (engine_calls w') i = Some fen /\
      evaluate_position i fen = inl e) ->
   (exists e, r = Raise e) /\ no_writes w w') /\
  (games w' <> games w ->
   exists chess_game rows,
     to_annotate chess game_id user_id w chess_game /\
     List.length rows = List.length (mainline chess chess_game) /\
     move_annotations w' = move_annotations w ++ rows /\
     games w' = set_analyzed game_id (games w) /\
     r = Return (response_of game_id rows)) /\
  (no_writes w w' \/
   exists chess_game rows k,
     to_annotate chess game_id user_id w chess_game /\
     replayed chess game_id (game_board chess chess_game) 1
       (mainline chess chess_game) rows /\
     List.length rows = List.length (mainline chess chess_game) /\
     k <= List.length rows /\
     move_annotations w' = move_annotations w ++ firstn k rows /\
     ((exists e, r = Raise e) /\ games w' = games w \/
      k = List.length rows /\ games w' = set_analyzed game_id (games w) /\
      r = Return (response_of game_id rows))) /\
  ((forall i, db_requests w <= i -> db_down i = false) ->
   no_writes w w' \/
   exists chess_game rows,
     to_annotate chess game_id user_id w chess_game /\
     List.length rows = List.length (mainline chess chess_game) /\
     move_annotations w' = move_annotations w ++ rows /\
     games w' = set_analyzed game_id (games w)).
Proof.
  intros Hrun. apply annotate_game_run_of in Hrun.
  assert (Hanswered : forall calls i fen e,
            calls_ok evaluate_position (List.length (engine_calls w)) calls ->
            List.length (engine_calls w) <= i ->
            nth_error (engine_calls w ++ calls) i = Some fen ->
            evaluate_position i fen = inl e -> False).
  { intros calls i fen e Hok Hi Hnth Hfail.
    rewrite nth_error_app2 in Hnth by exact Hi.
    destruct (Hok _ _ Hnth) as [position Hposition].
    replace (List.length (engine_calls w) + (i - List.length (engine_calls w)))
      with i in Hposition by lia.
    congruence. }
  assert (Hnone : forall i fen,
            List.length (engine_calls w) <= i ->
            nth_error (engine_calls w) i = Some fen -> False).
  { intros i fen Hi Hnth. apply nth_error_None in Hi. congruence. }
  split; [|split; [|split]].
  - intros (j & fen & e & Hj & Hnth & Hfail).
    inversion Hrun as [detail ? Hnw Hc Hl
                      | game ? Hgame Howner Htrue Hnw Hc Hl
                      | chess_game detail calls ? Hto Hnw Hc Hl
                      | chess_game detail calls rows k i ? Hto Hc Hok
                      | chess_game calls rows ? Hto Hc Hok]; subst;
      rewrite Hc in Hnth.
    + eauto.
    + exfalso. eauto.
    + eauto.
    + exfalso. eauto.
    + exfalso. eauto.
  - intros Hneq.
    inversion Hrun as [detail ? Hnw Hc Hl
                      | game ? Hgame Howner Htrue Hnw Hc Hl
                      | chess_game detail calls ? Hto Hnw Hc Hl
                      | chess_game detail calls rows k i ? Hto Hc Hok Hrows Hk Hm Hg
                      | chess_game calls rows ? Hto Hc Hok Hrows Hm Hg Hl]; subst;
      try (exfalso; apply Hneq; (apply Hnw || exact Hg)).
    exists chess_game, rows. repeat split; try assumption.
    exact (replayed_length _ _ _ _ _ _ Hrows).
  - inversion Hrun as [detail ? Hnw Hc Hl
                      | game ? Hgame Howner Htrue Hnw Hc Hl
                      | chess_game detail calls ? Hto Hnw Hc Hl
                      | chess_game detail calls rows k i ? Hto Hc Hok Hrows Hk Hm Hg
                      | chess_game calls rows ? Hto Hc Hok Hrows Hm Hg Hl]; subst;
      try (left; assumption); right.
    + exists chess_game, rows, k. repeat split; try assumption.
      * exact (replayed_length _ _ _ _ _ _ Hrows).
      * left. eauto.
    + exists chess_game, rows, (List.length rows). rewrite firstn_all.
      repeat split; try assumption.
      * exact (replayed_length _ _ _ _ _ _ Hrows).
      * lia.
      * right. auto.
  - intros Hup.
    inversion Hrun as [detail ? Hnw Hc Hl
                      | game ? Hgame Howner Htrue Hnw Hc Hl
                      | chess_game detail calls ? Hto Hnw Hc Hl
                      | chess_game detail calls rows k i ? Hto Hc Hok Hrows Hk Hm Hg
                          Hi Hdown
                      | chess_game calls rows ? Hto Hc Hok Hrows Hm Hg Hl]; subst;
      try (left; assumption).
    + rewrite (Hup i Hi) in Hdown. discriminate.
    + right. exists chess_game, rows. repeat split; try assumption.
      exact (replayed_length _ _ _ _ _ _ Hrows).
Qed.

End Stored.

(** ** Batch processing *)

Section Batch.

Variable chess : ChessLib.
Variable evaluate_position : nat -> string -> exception + EvaluationResult.
Variable db_down : nat -> bool.

Lemma games_with_id_set_analyzed (game_id c : string) (gs : list Game.t) :
  games_with_id game_id (set_analyzed c gs) =
    if String.eqb game_id c
    then map mark (games_with_id game_id gs)
    else games_with_id game_id gs.
Proof.
  unfold games_with_id, set_analyzed.
  induction gs as [|g gs IH]; cbn [map filter].
  - destruct (String.eqb game_id c); reflexivity.
  - assert (Hid : Game.id (if String.eqb (Game.id g) c then mark g else g) = Game.id g)
      by (destruct (String.eqb (Game.id g) c); reflexivity).
    rewrite Hid, IH.
    destruct (String.eqb (Game.id g) game_id) eqn:Hg; [|reflexivity].
    apply String.eqb_eq in Hg. rewrite Hg.
    destruct (String.eqb game_id c); reflexivity.
Qed.

Section Marked.

Variables (c : string) (w w1 : World).
Hypothesis Hmarked : games w1 = set_analyzed c (games w).

Lemma rows_kept (game_id : string) :
  game_id <> c -> games_with_id game_id (games w1) = games_with_id game_id (games w).
Proof.
  intros Hne. rewrite Hmarked, games_with_id_set_analyzed.
  apply String.eqb_neq in Hne. rewrite Hne. reflexivity.
Qed.

Lemma owner_kept (game_id : string) : owner game_id w1 = owner game_id w.
Proof.
  unfold owner, lookup_game. rewrite Hmarked, games_with_id_set_analyzed.
  destruct (String.eqb game_id c); [|reflexivity].
  destruct (games_with_id game_id (games w)); reflexivity.
Qed.

Lemma flagged_kept (game_id : string) :
  flagged game_id w = true -> flagged game_id w1 = true.
Proof.
  unfold flagged, lookup_game. rewrite Hmarked, games_with_id_set_analyzed.
  destruct (String.eqb game_id c); [|trivial].
  destruct (games_with_id game_id (games w)); [discriminate | reflexivity].
Qed.

Lemma flagged_marked (game : Game.t) :
  lookup_game c w = Some game -> flagged c w1 = true.
Proof.
  unfold flagged, lookup_game. rewrite Hmarked, games_with_id_set_analyzed.
  rewrite String.eqb_refl.
  destruct (games_with_id c (games w)); [discriminate | reflexivity].
Qed.

End Marked.

(** What one call of [annotate_game] leaves behind, as the batch sees it. *)
Lemma annotate_game_effect (c user_id : string) (w w1 : World)
    (r : outcome GameAnnotationResponse) :
  annotate_game chess evaluate_position db_down c user_id w = (r, w1) ->
  match r with
  | Return _ =>
      error_log w1 = error_log w /\
      owner c w = Some user_id /\
      flagged c w1 = true /\
      (games w1 = games w \/ games w1 = set_analyzed c (games w))
  | Raise e =>
      (exists line, error_log w1 = error_log w ++ [line]) /\
      (exists detail, e = HTTPException 500 detail) /\
      games w1 = games w
  end.
Proof.
  intros Hrun. apply annotate_game_run_of in Hrun.
  inversion Hrun as [detail ? [Hg Hm] Hc Hl
                    | game ? Hgame Howner Htrue [Hg Hm] Hc Hl
                    | chess_game detail calls ? Hto [Hg Hm] Hc Hl
                    | chess_game detail calls rows k i ? Hto Hc Hok Hrows Hk Hm Hg
                        Hi Hdown Hl
                    | chess_game calls rows ? Hto Hc Hok Hrows Hm Hg Hl]; subst;
    try (split; [eauto | split; [eauto | assumption]]).
  - repeat split; auto.
    + unfold owner. rewrite Hgame. reflexivity.
    + unfold flagged, lookup_game. rewrite Hg.
      unfold lookup_game in Hgame. rewrite Hgame. exact Htrue.
  - destruct Hto as (game & text & Hgame & Howner & _).
    repeat split; auto.
    + unfold owner. rewrite Hgame, <- Howner. reflexivity.
    + exact (flagged_marked _ _ _ Hg _ Hgame).
Qed.

Lemma same_rows (game_id : string) (w w1 : World) :
  games_with_id game_id (games w1) = games_with_id game_id (games w) ->
  lookup_game game_id w1 = lookup_game game_id w /\
  owner game_id w1 = owner game_id w /\
  flagged game_id w1 = flagged game_id w.
Proof. unfold owner, flagged, lookup_game. intros ->. auto. Qed.

(** One round of the batch loop: the call and its [except]. *)
Lemma process_one (user_id c : string) (acc : list string) (w w1 : World)
    (r1 : outcome (list string)) :
  try_except
    (annotate_game chess evaluate_position db_down c user_id ;;;
     ret (acc ++ [c]))
    (fun e =>
       logging_error ("Error processing game " ++ c ++ ": " ++ str e) ;;;
       ret acc) w = (r1, w1) ->
  (r1 = Return (acc ++ [c]) /\
   error_log w1 = error_log w /\
   owner c w = Some user_id /\
   flagged c w1 = true /\
   (games w1 = games w \/ games w1 = set_analyzed c (games w))) \/
  (r1 = Return acc /\
   List.length (error_log w1) = 2 + List.length (error_log w) /\
   games w1 = games w).
Proof.
  unfold try_except, bind at 1.
  destruct (annotate_game chess evaluate_position db_down c user_id w)
    as [[resp|e] w0] eqn:Hcall; apply annotate_game_effect in Hcall.
  - intros H. injection H as <- <-. left. tauto.
  - destruct Hcall as ([line Hl] & _ & Hg).
    intros H. injection H as <- <-. right. fields.
    rewrite Hl, !length_app. cbn. repeat split; [lia | assumption].
Qed.

(** The batch loop: it always ends normally; the games it reports are the
    candidates whose call succeeded, each owned by the requester and marked
    analyzed at the end; each failure leaves two lines in the log and the
    rows of the game as they were. *)
Lemma process_games_spec (user_id : string) (ids : list string) :
  forall acc w r w',
    process_games chess evaluate_position db_down user_id ids acc w = (r, w') ->
    exists ok,
      r = Return (acc ++ ok) /\
      incl ok ids /\
      List.length ok <= List.length ids /\
      List.length (error_log w') =
        List.length (error_log w) + 2 * (List.length ids - List.length ok) /\
      (forall gid, In gid ok -> owner gid w = Some user_id) /\
      (forall gid, owner gid w' = owner gid w) /\
      (forall gid, ~ In gid ids \/ owner gid w <> Some user_id ->
         games_with_id gid (games w') = games_with_id gid (games w)) /\
      (forall gid, flagged gid w = true -> flagged gid w' = true) /\
      (forall gid, In gid ok -> flagged gid w' = true) /\
      (NoDup ids -> (forall gid, In gid ids -> flagged gid w = false) ->
         ok = filter (fun gid => flagged gid w') ids).
Proof.
  induction ids as [|c rest IH]; intros acc w r w' Hrun.
  - injection Hrun as <- <-. exists []. rewrite app_nil_r.
    repeat split; auto using incl_nil_l; try lia; try contradiction.
  - cbn [process_games] in Hrun.
    apply bind_inv in Hrun as [(acc1 & w1 & Hone & Hrest)|(e & Hone & _)];
      apply process_one in Hone
        as [(Hr & Hl & Ho & Hf & Hg)|(Hr & Hl & Hg)]; try discriminate.
    + (* the call succeeded *)
      injection Hr as ->.
      apply IH in Hrest as (ok & -> & Hincl & Hlen & Hlog & Hown & Hkeep & Hrows
                              & Hmono & Hflag & Hfilter).
      assert (Hrows1 : forall gid, gid <> c ->
                games_with_id gid (games w1) = games_with_id gid (games w)).
      { intros gid Hne. destruct Hg as [Hg|Hg]; [rewrite Hg; reflexivity|].
        exact (rows_kept _ _ _ Hg _ Hne). }
      assert (Hown1 : forall gid, owner gid w1 = owner gid w).
      { intros gid. destruct Hg as [Hg|Hg]; [|exact (owner_kept _ _ _ Hg _)].
        apply same_rows. rewrite Hg. reflexivity. }
      assert (Hmono1 : forall gid, flagged gid w = true -> flagged gid w1 = true).
      { intros gid. destruct Hg as [Hg|Hg]; [|exact (flagged_kept _ _ _ Hg _)].
        intros <-. apply same_rows. rewrite Hg. reflexivity. }
      exists (c :: ok). rewrite <- app_assoc. cbn [app List.length].
      repeat split.
      * apply incl_cons; [left; reflexivity | apply incl_tl; exact Hincl].
      * lia.
      * rewrite Hlog, Hl. lia.
      * intros gid [<-|Hin]; [exact Ho | rewrite <- Hown1; auto].
      * intros gid. rewrite Hkeep. apply Hown1.
      * intros gid Hgid.
        assert (Hne : gid <> c).
        { intros ->. destruct Hgid as [Hnot|Hother];
            [apply Hnot; left; reflexivity | exact (Hother Ho)]. }
        rewrite Hrows; [exact (Hrows1 _ Hne)|].
        destruct Hgid as [Hnot|Hother].
        -- left. intros Hin. apply Hnot. right. exact Hin.
        -- right. rewrite Hown1. exact Hother.
      * intros gid Hgid. auto.
      * intros gid [<-|Hin]; auto.
      * intros Hnodup Hunflagged. inversion Hnodup as [|? ? Hnotin Hnodup']; subst.
        cbn [filter]. rewrite (Hmono _ Hf). f_equal.
        apply Hfilter; [exact Hnodup'|].
        intros gid Hin.
        assert (Hne : gid <> c) by (intros ->; exact (Hnotin Hin)).
        destruct (same_rows _ _ _ (Hrows1 _ Hne)) as (_ & _ & ->).
        apply Hunflagged. right. exact Hin.
    + (* the call failed *)
      injection Hr as ->.
      apply IH in Hrest as (ok & -> & Hincl & Hlen & Hlog & Hown & Hkeep & Hrows
                              & Hmono & Hflag & Hfilter).
      assert (Hsame : forall gid,
                lookup_game gid w1 = lookup_game gid w /\
                owner gid w1 = owner gid w /\
                flagged gid w1 = flagged gid w).
      { intros gid. apply same_rows. rewrite Hg. reflexivity. }
      exists ok. cbn [List.length]. repeat split.
      * apply incl_tl. exact Hincl.
      * lia.
      * rewrite Hlog, Hl. lia.
      * intros gid Hin. rewrite <- (proj1 (proj2 (Hsame gid))). auto.
      * intros gid. rewrite Hkeep. apply Hsame.
      * intros gid Hgid. rewrite Hrows; [rewrite Hg; reflexivity|].
        destruct Hgid as [Hnot|Hother].
        -- left. intros Hin. apply Hnot. right. exact Hin.
        -- right. rewrite (proj1 (proj2 (Hsame gid))). exact Hother.
      * intros gid Hgid. apply Hmono. rewrite (proj2 (proj2 (Hsame gid))). exact Hgid.
      * exact Hflag.
      * intros Hnodup Hunflagged. inversion Hnodup as [|? ? Hnotin Hnodup']; subst.
        cbn [filter].
        assert (Hc : flagged c w' = false).
        { destruct (same_rows c w1 w' (Hrows c (or_introl Hnotin))) as (_ & _ & ->).
          rewrite (proj2 (proj2 (Hsame c))). apply Hunflagged. left. reflexivity. }
        rewrite Hc. apply Hfilter; [exact Hnodup'|].
        intros gid Hin. rewrite (proj2 (proj2 (Hsame gid))).
        apply Hunflagged. right. exact Hin.
Qed.

(** *** The candidates, when [id] is a key of [games] *)

Lemma In_firstn {A : Type} (n : nat) (l : list A) (x : A) :
  In x (firstn n l) -> In x l.
Proof.
  intros H. rewrite <- (firstn_skipn n l). apply in_or_app. left. exact H.
Qed.

Lemma NoDup_firstn_of {A : Type} (n : nat) (l : list A) :
  NoDup l -> NoDup (firstn n l).
Proof.
  intros H. rewrite <- (firstn_skipn n l) in H.
  exact (NoDup_app_remove_r _ _ H).
Qed.

Lemma filtered_games_key (keep : Game.t -> bool) (gs : list Game.t) :
  NoDup (map Game.id gs) -> NoDup (map Game.id (filter keep gs)).
Proof.
  induction gs as [|g gs IH]; cbn [map filter]; intros Hkey; [constructor|].
  inversion Hkey as [|? ? Hnotin Hrest]; subst.
  destruct (keep g); [|auto].
  cbn [map]. constructor; [|auto].
  intros Hin. apply Hnotin. apply in_map_iff in Hin as (g' & <- & Hin).
  apply filter_In in Hin as [Hin _]. apply in_map. exact Hin.
Qed.

Lemma games_with_id_key (gs : list Game.t) (g : Game.t) :
  NoDup (map Game.id gs) -> In g gs -> games_with_id (Game.id g) gs = [g].
Proof.
  unfold games_with_id.
  induction gs as [|g0 gs IH]; cbn [map filter]; intros Hkey Hin; [contradiction|].
  inversion Hkey as [|? ? Hnotin Hrest]; subst.
  destruct Hin as [->|Hin].
  - rewrite String.eqb_refl. f_equal.
    clear IH Hkey Hrest. induction gs as [|g1 gs IH]; [reflexivity|].
    cbn [filter]. destruct (String.eqb (Game.id g1) (Game.id g)) eqn:Heq.
    + exfalso. apply Hnotin. left. apply String.eqb_eq. exact Heq.
    + apply IH. intros Hin. apply Hnotin. right. exact Hin.
  - destruct (String.eqb (Game.id g0) (Game.id g)) eqn:Heq; [|auto].
    exfalso. apply Hnotin. apply String.eqb_eq in Heq. rewrite Heq.
    apply in_map. exact Hin.
Qed.

Lemma candidates_unflagged (limit : nat) (w : World) :
  NoDup (map Game.id (games w)) ->
  NoDup (unanalyzed_ids limit (games w)) /\
  forall gid, In gid (unanalyzed_ids limit (games w)) -> flagged gid w = false.
Proof.
  intros Hkey. unfold unanalyzed_ids. split.
  - apply NoDup_firstn_of, filtered_games_key, Hkey.
  - intros gid Hin. apply In_firstn in Hin.
    apply in_map_iff in Hin as (g & <- & Hin).
    apply filter_In in Hin as [Hin Hfalse].
    unfold flagged, lookup_game. rewrite (games_with_id_key _ _ Hkey Hin).
    cbn [head]. destruct (Game.analyzed g) as [[]|]; (discriminate || reflexivity).
Qed.

(** The batch call as a whole. *)
Lemma process_unannotated_games_spec (limit : nat) (user_id : string)
    (w w' : World) (r : outcome BatchAnnotationResponse) :
  process_unannotated_games chess evaluate_position db_down limit user_id w = (r, w') ->
  (db_down (db_requests w) = true /\
   exists detail, r = Raise (HTTPException 500 detail)) \/
  (db_down (db_requests w) = false /\
   exists ok,
     r = Return (mkBatchAnnotationResponse (List.length ok) ok) /\
     incl ok (unanalyzed_ids limit (games w)) /\
     List.length ok <= List.length (unanalyzed_ids limit (games w)) /\
     List.length (error_log w') =
       List.length (error_log w) +
       2 * (List.length (unanalyzed_ids limit (games w)) - List.length ok) /\
     (forall gid, In gid ok -> owner gid w = Some user_id) /\
     (forall gid, owner gid w <> Some user_id ->
        games_with_id gid (games w') = games_with_id gid (games w)) /\
     (forall gid, In gid ok -> flagged gid w' = true) /\
     (NoDup (map Game.id (games w)) ->
        ok = filter (fun gid => flagged gid w') (unanalyzed_ids limit (games w)))).
Proof.
  unfold process_unannotated_games, try_except.
  destruct ((games_response <- select_unanalyzed db_down limit ;;
             match games_response with
             | [] => ret (mkBatchAnnotationResponse 0 [])
             | _ :: _ =>
                 processed_game_ids <-
                   process_games chess evaluate_position db_down user_id
                     games_response [] ;;
                 ret (mkBatchAnnotationResponse (List.length processed_game_ids)
                        processed_game_ids)
             end) w) as [rb wb] eqn:Hbody.
  apply bind_inv in Hbody as [(ids & w0 & Hsel & Hbody)|(e & Hsel & ->)];
    apply execute_inv in Hsel as (Hn0 & Hc0 & Hl0 & Hsel).
  2:{ destruct Hsel as [(Hdown & _ & _)|(_ & Hr & _)]; [|discriminate].
      intros H. injection H as <- <-. left. eauto. }
  destruct Hsel as [(_ & Hr & _)|(Hup & Hr & Hg0 & Hm0)]; [discriminate|].
  cbn in Hr, Hg0, Hm0. injection Hr as ->.
  assert (Hsame : forall gid,
            lookup_game gid w0 = lookup_game gid w /\
            owner gid w0 = owner gid w /\
            flagged gid w0 = flagged gid w).
  { intros gid. apply same_rows. rewrite Hg0. reflexivity. }
  destruct (unanalyzed_ids limit (games w)) as [|c rest] eqn:Hids.
  { injection Hbody as <- <-. intros H. injection H as <- <-.
    right. split; [exact Hup|]. exists [].
    repeat split; auto using incl_nil_l; try contradiction.
    - cbn [List.length]. rewrite Hl0. lia.
    - intros gid _. rewrite Hg0. reflexivity. }
  apply bind_inv in Hbody as [(processed & w1 & Hloop & Hbody)|(e & Hloop & _)];
    apply process_games_spec in Hloop
      as (ok & Hr & Hincl & Hlen & Hlog & Hown & Hkeep & Hrows & Hmono & Hflag
          & Hfilter); [|discriminate].
  injection Hr as ->. injection Hbody as <- <-. intros H. injection H as <- <-.
  right. split; [exact Hup|]. exists ok. cbn [app].
  repeat split; try assumption.
  - rewrite Hlog, Hl0. reflexivity.
  - intros gid Hin. rewrite <- (proj1 (proj2 (Hsame gid))). auto.
  - intros gid Hother. rewrite Hrows, Hg0; [reflexivity|].
    right. rewrite (proj1 (proj2 (Hsame gid))). exact Hother.
  - intros Hkey. destruct (candidates_unflagged limit w Hkey) as [Hnodup Hunflagged].
    rewrite Hids in Hnodup, Hunflagged.
    apply Hfilter; [exact Hnodup|].
    intros gid Hin. rewrite (proj2 (proj2 (Hsame gid))). auto.
Qed.

(** C6: the batch call fails when listing the candidates fails and only
    then; otherwise it ends normally, whatever happens to the single games,
    and reports the number and the list of the games whose call succeeded:
    each reported game is a candidate and is marked analyzed, each candidate
    left out has logged its failure, and with [id] a key of [games] the list
    is made of the candidates that are marked analyzed at the end, in order.
    No candidate gives zero and the empty list. *)
Theorem batch_isolates_failures (limit : nat) (user_id : string) (w : World) :
  (db_down (db_requests w) = true ->
   exists detail w',
     process_unannotated_games chess evaluate_position db_down limit user_id w =
       (Raise (HTTPException 500 detail), w')) /\
  (db_down (db_requests w) = false ->
   exists resp w',
     process_unannotated_games chess evaluate_position db_down limit user_id w =
       (Return resp, w') /\
     processed_games resp = List.length (game_ids resp) /\
     incl (game_ids resp) (unanalyzed_ids limit (games w)) /\
     List.length (error_log w') =
       List.length (error_log w) +
       2 * (List.length (unanalyzed_ids limit (games w)) -
            List.length (game_ids resp)) /\
     (forall gid, In gid (game_ids resp) -> flagged gid w' = true) /\
     (unanalyzed_ids limit (games w) = [] ->
      resp = mkBatchAnnotationResponse 0 []) /\
     (NoDup (map Game.id (games w)) ->
      game_ids resp =
        filter (fun gid => flagged gid w') (unanalyzed_ids limit (games w)))).
Proof.
  destruct (process_unannotated_games chess evaluate_position db_down limit user_id w)
    as [r w'] eqn:Hrun.
  apply process_unannotated_games_spec in Hrun
    as [(Hdown & detail & ->)
       |(Hup & ok & -> & Hincl & Hlen & Hlog & Hown & Hrows & Hflag & Hfilter)];
    split; intros Hdb; try congruence.
  - eauto.
  - exists (mkBatchAnnotationResponse (List.length ok) ok), w'.
    cbn [processed_games game_ids]. repeat split; try assumption.
    intros Hnone. rewrite Hnone in Hincl.
    destruct ok as [|gid ok]; [reflexivity|].
    destruct (Hincl gid (or_introl eq_refl)).
Qed.

(** C10: the batch call reports only games owned by the requester; a game
    owned by someone else is left out of the list and its row is as it was,
    so a candidate of another owner is still not marked analyzed; the count
    is the length of the list. *)
Theorem batch_succeeds_only_on_own_games (limit : nat) (user_id : string)
    (w w' : World) (resp : BatchAnnotationResponse) :
  process_unannotated_games chess evaluate_position db_down limit user_id w =
    (Return resp, w') ->
  processed_games resp = List.length (game_ids resp) /\
  (forall gid, In gid (game_ids resp) ->
     In gid (unanalyzed_ids limit (games w)) /\ owner gid w = Some user_id) /\
  (forall game,
     lookup_game (Game.id game) w = Some game ->
     Game.user_id game <> user_id ->
     ~ In (Game.id game) (game_ids resp) /\
     lookup_game (Game.id game) w' = Some game /\
     (Game.analyzed game = Some false -> flagged (Game.id game) w' = false)).
Proof.
  intros Hrun.
  apply process_unannotated_games_spec in Hrun
    as [(_ & detail & Hr)
       |(_ & ok & Hr & Hincl & Hlen & Hlog & Hown & Hrows & Hflag & Hfilter)];
    [discriminate|].
  injection Hr as ->. cbn [processed_games game_ids].
  split; [reflexivity|]. split; [auto|].
  intros game Hgame Hother.
  assert (Howner : owner (Game.id game) w <> Some user_id).
  { unfold owner. rewrite Hgame. cbn. congruence. }
  destruct (same_rows _ _ _ (Hrows _ Howner)) as (Hlookup & _ & _).
  split; [|split].
  - intros Hin. exact (Howner (Hown _ Hin)).
  - rewrite Hlookup. exact Hgame.
  - intros Hfalse. unfold flagged. rewrite Hlookup, Hgame, Hfalse. reflexivity.
Qed.

End Batch.

(** ** The properties at work on the sample games *)

(** Runs the handler of the goal and keeps the result as [Hrun]. *)
Ltac run_sample :=
  match goal with
  | |- exists r w', ?run = @?rhs r w' /\ _ =>
      let p := eval vm_compute in run in
      match p with
      | (Return ?r, ?w) =>
          exists r, w;
          assert (Hrun : run = (Return r, w)) by (vm_compute; reflexivity);
          split; [exact Hrun|]
      | (?r, ?w) =>
          exists r, w;
          assert (Hrun : run = (r, w)) by (vm_compute; reflexivity);
          split; [exact Hrun|]
      end
  end.

Lemma evaluation_change_from_movers_side_witness :
  exists resp w',
    annotate_game Sample.lib Sample.engine Sample.db_up "g1" "alice"
      (Sample.world [Sample.open_game]) = (Return resp, w') /\
    Forall from_movers_side (annotations resp).
Proof.
  run_sample.
  exact (proj1 (evaluation_change_from_movers_side Sample.lib Sample.engine
                  Sample.db_up "g1" "alice" (Sample.world [Sample.open_game]) _ _
                  Sample.open_game eq_refl eq_refl Hrun)).
Defined.

Lemma produced_positions_continuous_witness :
  exists resp w',
    annotate_game Sample.lib Sample.engine Sample.db_up "g1" "alice"
      (Sample.world [Sample.open_game]) = (Return resp, w') /\
    continuous (annotations resp).
Proof.
  run_sample.
  exact (produced_positions_continuous Sample.lib Sample.engine Sample.db_up
           "g1" "alice" (Sample.world [Sample.open_game]) _ _ Sample.open_game
           eq_refl eq_refl Hrun).
Defined.

Lemma produced_colors_and_move_numbers_witness :
  exists resp w',
    annotate_game Sample.lib Sample.engine Sample.db_up "g1" "alice"
      (Sample.world [Sample.open_game]) = (Return resp, w') /\
    alternates (annotations resp) /\ starts_white_numbered (annotations resp).
Proof.
  run_sample.
  destruct (produced_colors_and_move_numbers Sample.lib Sample.engine
              Sample.db_up (fun board move => eq_refl)
              "g1" "alice" (Sample.world [Sample.open_game]) _ _
              Sample.open_game Sample.open_game_pgn
              (Sample.mkBoard true Sample.start_fen, ["e2e4"; "e7e5"])
              eq_refl eq_refl eq_refl eq_refl Hrun) as (Halt & _ & Hwhite).
  split; [exact Halt | exact (Hwhite eq_refl)].
Defined.

(** A game whose PGN sets up a position with Black to move: its first ply
    is annotated "black", and its second ply carries the move number 2. *)
Lemma black_to_move_game_starts_black :
  exists resp w',
    annotate_game Sample.lib Sample.engine Sample.db_up "g2" "alice"
      (Sample.world [Sample.kings_game]) = (Return resp, w') /\
    map color (annotations resp) = ["black"; "white"] /\
    map move_number (annotations resp) = [1; 2] /\
    ~ starts_white_numbered (annotations resp).
Proof.
  run_sample. repeat split.
  intros H. destruct (H 0 _ eq_refl) as [Hcolor _]. discriminate Hcolor.
Qed.

Lemma is_book_move_always_false_witness :
  exists resp w',
    annotate_game Sample.lib Sample.engine Sample.db_up "g1" "alice"
      (Sample.world [Sample.open_game]) = (Return resp, w') /\
    Forall (fun a => is_book_move a = false) (annotations resp).
Proof.
  run_sample.
  exact (proj2 (is_book_move_always_false Sample.lib Sample.engine Sample.db_up
                  "g1" "alice" _ _ _ Hrun)
           Sample.open_game _ eq_refl eq_refl eq_refl).
Defined.

Lemma analyzed_game_returns_stored_set_witness :
  exists w1 w2,
    annotate_game Sample.lib Sample.engine Sample.db_up "g1" "alice"
      Sample.stored_world =
      (Return (response_of "g1" (persisted "g1" Sample.stored_world)), w1) /\
    annotate_game Sample.lib Sample.engine Sample.db_up "g1" "alice" w1 =
      (Return (response_of "g1" (persisted "g1" Sample.stored_world)), w2) /\
    no_writes Sample.stored_world w2 /\
    engine_calls w2 = engine_calls Sample.stored_world.
Proof.
  destruct (proj2 (analyzed_game_returns_stored_set Sample.lib Sample.engine
                     Sample.db_up "g1" "alice" Sample.stored_world
                     (mark Sample.open_game) eq_refl eq_refl eq_refl)
              (fun i _ => eq_refl))
    as (w1 & w2 & Hfirst & [Hg1 Hm1] & Hc1 & _ & Hsecond & [Hg2 Hm2] & Hc2 & _).
  exists w1, w2. repeat split; try assumption; congruence.
Defined.

(** The second evaluation of the game fails: the call raises and both tables
    are as before. *)
Lemma annotation_set_persistence_witness :
  exists r w',
    annotate_game Sample.lib (Sample.engine_failing_from 1) Sample.db_up "g1" "alice"
      (Sample.world [Sample.open_game]) = (r, w') /\
    (exists e, r = Raise e) /\
    no_writes (Sample.world [Sample.open_game]) w'.
Proof.
  run_sample.
  refine (proj1 (annotation_set_persistence Sample.lib (Sample.engine_failing_from 1)
                   Sample.db_up "g1" "alice" _ _ _ Hrun)
            (ex_intro _ 1 (ex_intro _ Sample.after_e4
               (ex_intro _ (Error "engine unavailable")
                  (conj (le_S _ _ (le_n 0)) (conj eq_refl eq_refl)))))).
Defined.

(** The database fails on the second insert of a game of two plies: one row
    of the two is stored, and the game is still not marked analyzed. *)
Lemma failed_insert_leaves_partial_set :
  exists r w',
    annotate_game Sample.lib Sample.engine (Sample.db_failing_at 2) "g1" "alice"
      (Sample.world [Sample.open_game]) = (r, w') /\
    List.length (mainline Sample.lib
                   (Sample.mkBoard true Sample.start_fen, ["e2e4"; "e7e5"])) = 2 /\
    List.length (persisted "g1" w') = 1 /\
    flagged "g1" w' = false /\
    ~ complete_or_absent (persisted "g1" w') 2.
Proof.
  run_sample. repeat split.
  intros [Habsent|Hcomplete]; discriminate.
Qed.

Lemma annotate_game_failures_are_500_witness :
  fst (annotate_game Sample.lib Sample.engine Sample.db_up "g9" "alice"
         (Sample.world [Sample.open_game])) =
    Raise (HTTPException 500 "Error annotating game: 404: Game not found") /\
  fst (annotate_game Sample.lib Sample.engine Sample.db_up "g3" "alice"
         (Sample.world [Sample.bobs_game])) =
    Raise (HTTPException 500
             "Error annotating game: 403: Unauthorized access to this game").
Proof.
  split.
  - exact (proj1 (proj2 (annotate_game_failures_are_500 Sample.lib Sample.engine
                           Sample.db_up "g9" "alice"
                           (Sample.world [Sample.open_game])))
             eq_refl eq_refl).
  - refine (proj1 (proj2 (proj2 (annotate_game_failures_are_500 Sample.lib
                                   Sample.engine Sample.db_up "g3" "alice"
                                   (Sample.world [Sample.bobs_game])))
                     eq_refl Sample.bobs_game eq_refl _)).
    discriminate.
Defined.

(** Three candidates, the second without move text: the other two are
    reported, and the second is still not marked analyzed. *)
Lemma batch_isolates_failures_witness :
  exists resp w',
    process_unannotated_games Sample.lib Sample.engine Sample.db_up 3 "alice"
      (Sample.world [Sample.open_game; Sample.empty_game; Sample.kings_game]) =
      (Return resp, w') /\
    processed_games resp = 2 /\
    game_ids resp = ["g1"; "g2"] /\
    flagged "g4" w' = false.
Proof.
  destruct (proj2 (batch_isolates_failures Sample.lib Sample.engine Sample.db_up 3
                     "alice"
                     (Sample.world
                        [Sample.open_game; Sample.empty_game; Sample.kings_game]))
              eq_refl)
    as (resp & w' & Hrun & _).
  exists resp, w'. split; [exact Hrun|].
  vm_compute in Hrun. injection Hrun as <- <-. repeat split.
Defined.

(** Bob's game is a candidate of Alice's batch: it is not reported and
    stays as it was. *)
Lemma batch_succeeds_only_on_own_games_witness :
  exists resp w',
    process_unannotated_games Sample.lib Sample.engine Sample.db_up 3 "alice"
      (Sample.world [Sample.open_game; Sample.bobs_game; Sample.kings_game]) =
      (Return resp, w') /\
    ~ In "g3" (game_ids resp) /\
    lookup_game "g3" w' = Some Sample.bobs_game.
Proof.
  run_sample.
  assert (Hbob : Game.user_id Sample.bobs_game <> "alice") by discriminate.
  destruct (proj2 (proj2 (batch_succeeds_only_on_own_games Sample.lib Sample.engine
                            Sample.db_up 3 "alice" _ _ _ Hrun))
              Sample.bobs_game eq_refl Hbob) as (Hout & Hkept & _).
  split; assumption.
Defined.

(** ** More on classification *)

Section ClassificationOrder.

Lemma SFleb_ltb_trans (x y z : spec_float) :
  SFleb x y = true -> SFltb y z = true -> SFltb x z = true.
Proof.
  unfold SFleb, SFltb, SFcompare.
  destruct x as [[]|[]| |[] mx ex], y as [[]|[]| |[] my ey], z as [[]|[]| |[] mz ez];
    try reflexivity; try discriminate;
    intros Hxy Hyz; FloatOrder.cmp_cases; cbn [CompOpp] in *;
    try reflexivity; try discriminate; subst; try lia.
Qed.

Lemma SFeqb_false_ltb (x y : spec_float) :
  SFeqb x x = false -> SFltb x y = false.
Proof.
  unfold SFeqb, SFltb, SFcompare.
  destruct x as [[]|[]| |[] mx ex]; try discriminate; try reflexivity;
    intros H; FloatOrder.cmp_cases; cbn [CompOpp] in *;
    try discriminate; subst; try lia.
Qed.

Local Open Scope float_scope.

Lemma leb_ltb_trans (x y c : float) :
  (x <=? y) = true -> (y <? c) = true -> (x <? c) = true.
Proof. rewrite leb_spec, !ltb_spec. apply SFleb_ltb_trans. Qed.

Lemma nan_ltb (x c : float) : (x =? x) = false -> (x <? c) = false.
Proof. rewrite eqb_spec, ltb_spec. apply SFeqb_false_ltb. Qed.

(** X1: the label never gets worse when the evaluation change gets larger. *)
Theorem classify_move_monotone (x y : float) :
  (x <=? y) = true ->
  label_rank (classify_move x) <= label_rank (classify_move y).
Proof.
  intros Hxy.
  assert (Hbelow : forall c, (y <? c) = true -> (x <? c) = true)
    by (intros c; apply leb_ltb_trans; exact Hxy).
  unfold classify_move.
  destruct (y <? -2.0) eqn:Y1; [rewrite (Hbelow _ Y1); apply Nat.le_refl|].
  destruct (y <? -1.0) eqn:Y2;
    [rewrite (Hbelow _ Y2); destruct (x <? -2.0); cbn; lia|].
  destruct (y <? -0.5) eqn:Y3;
    [rewrite (Hbelow _ Y3); destruct (x <? -2.0), (x <? -1.0); cbn; lia|].
  destruct (y <? 0.1) eqn:Y4;
    [rewrite (Hbelow _ Y4);
     destruct (x <? -2.0), (x <? -1.0), (x <? -0.5); cbn; lia|].
  destruct (y <? 0.5) eqn:Y5;
    [rewrite (Hbelow _ Y5);
     destruct (x <? -2.0), (x <? -1.0), (x <? -0.5), (x <? 0.1); cbn; lia|].
  destruct (x <? -2.0), (x <? -1.0), (x <? -0.5), (x <? 0.1), (x <? 0.5); cbn; lia.
Qed.

Lemma classify_move_monotone_witness :
  label_rank (classify_move (-1.5)) <= label_rank (classify_move 0.3).
Proof. apply classify_move_monotone. reflexivity. Defined.

(** X2: an evaluation change that is not a number gets the best label. *)
Theorem classify_move_nan (x : float) :
  (x =? x) = false -> classify_move x = "excellent".
Proof.
  intros Hnan. unfold classify_move. rewrite !(nan_ltb x _ Hnan). reflexivity.
Qed.

Lemma classify_move_nan_witness : classify_move nan = "excellent".
Proof. apply classify_move_nan. reflexivity. Defined.

End ClassificationOrder.

(** ** The anatomy of a successful annotation *)

Section Anatomy.

Variable chess : ChessLib.
Variable evaluate_position : nat -> string -> exception + EvaluationResult.
Variable db_down : nat -> bool.

Lemma annotate_moves_answers (game_id : string) (moves : list (Move chess)) :
  forall board n acc w rows w',
    annotate_moves chess evaluate_position game_id board moves n acc w =
      (Return rows, w') ->
    exists new,
      rows = acc ++ new /\
      engine_calls w' =
        engine_calls w ++ positions_evaluated (map Annotation.fields new) /\
      answers_recorded evaluate_position (List.length (engine_calls w))
        (map Annotation.fields new).
Proof.
  induction moves as [|move moves IH]; intros board n acc w rows w' Hrun.
  - injection Hrun as <- <-. exists []. rewrite !app_nil_r.
    repeat split. intros [|j] a H; discriminate.
  - simpl in Hrun. unfold bind at 1 in Hrun. unfold stockfish_evaluate at 1 in Hrun.
    destruct (evaluate_position (List.length (engine_calls w)) (fen chess board))
      as [e|before] eqn:Hbefore; [discriminate|].
    unfold bind at 1 in Hrun. unfold stockfish_evaluate at 1 in Hrun.
    cbn [engine_calls games move_annotations db_requests error_log] in Hrun.
    destruct (evaluate_position (List.length (engine_calls w ++ [fen chess board]))
                (fen chess (push chess board move))) as [e|after] eqn:Hafter;
      [discriminate|].
    replace (List.length (engine_calls w ++ [fen chess board]))
      with (S (List.length (engine_calls w))) in Hafter
      by (rewrite length_app; simpl; lia).
    apply IH in Hrun as (new & -> & Hcalls & Hanswers).
    cbn [engine_calls] in Hcalls, Hanswers.
    replace (List.length ((engine_calls w ++ [fen chess board]) ++
                            [fen chess (push chess board move)]))
      with (S (S (List.length (engine_calls w)))) in Hanswers
      by (rewrite !length_app; simpl; lia).
    eexists (_ :: new). split; [rewrite <- app_assoc; reflexivity|]. split.
    + rewrite Hcalls, <- !app_assoc. reflexivity.
    + intros [|j] a Ha.
      * cbn in Ha. injection Ha as <-. cbn [fen_before fen_after evaluation_before
          evaluation_after is_best_move move_uci].
        exists before, after. rewrite Nat.mul_0_r, Nat.add_0_r.
        replace (List.length (engine_calls w) + 1)
          with (S (List.length (engine_calls w))) by lia.
        repeat split; assumption.
      * cbn [map nth_error] in Ha.
        destruct (Hanswers j a Ha) as (b' & a' & H1 & H2 & H3).
        exists b', a'.
        replace (List.length (engine_calls w) + 2 * S j)
          with (S (S (List.length (engine_calls w))) + 2 * j) by lia.
        repeat split; tauto.
Qed.

Lemma insert_annotations_count (rows : list Annotation.t) :
  forall w w',
    insert_annotations db_down rows w = (Return tt, w') ->
    db_requests w' = db_requests w + List.length rows.
Proof.
  induction rows as [|row rows IH]; intros w w' Hrun.
  - injection Hrun as <-. cbn. lia.
  - cbn [insert_annotations] in Hrun.
    apply bind_inv in Hrun as [(a & w1 & Hins & Hrest)|(e & _ & He)];
      [|discriminate].
    apply execute_inv in Hins as (Hn & _).
    apply IH in Hrest. cbn [List.length]. lia.
Qed.

(** A successful call on a game not marked analyzed, step by step. *)
Lemma annotate_game_fresh_anatomy (game_id user_id : string) (w w' : World)
    (resp : GameAnnotationResponse) (game : Game.t) :
  lookup_game game_id w = Some game ->
  truthy (Game.analyzed game) = false ->
  annotate_game chess evaluate_position db_down game_id user_id w = (Return resp, w') ->
  engine_calls w' = engine_calls w ++ positions_evaluated (annotations resp) /\
  answers_recorded evaluate_position (List.length (engine_calls w))
    (annotations resp) /\
  db_requests w' = db_requests w + total_moves resp + 2 /\
  total_moves resp = List.length (annotations resp) /\
  error_log w' = error_log w.
Proof.
  intros Hgame Hfalse Hrun.
  unfold annotate_game, try_except in Hrun.
  destruct (annotate_game_body chess evaluate_position db_down game_id user_id w)
    as [[rb|e] wb] eqn:Hbody; [|discriminate].
  injection Hrun as -> ->.
  unfold annotate_game_body in Hbody.
  apply bind_inv in Hbody as [(found & w1 & Hsel & Hbody)|(e & _ & He)];
    [|discriminate].
  apply execute_inv in Hsel as (Hn1 & Hc1 & Hl1 & [(_ & Hr & _)|(_ & Hr & _)]);
    [discriminate|].
  cbn in Hr. injection Hr as ->.
  apply lookup_game_inv in Hgame as [rest Hfound]. rewrite Hfound in Hbody.
  destruct (negb (String.eqb (Game.user_id game) user_id)); [discriminate|].
  rewrite Hfalse in Hbody.
  destruct (pgn_or_moves_only game) as [[|c text]|]; try discriminate.
  destruct (read_game chess (String c text)) as [chess_game|]; [|discriminate].
  apply bind_inv in Hbody as [(rows & w2 & Hloop & Hbody)|(e & _ & He)];
    [|discriminate].
  pose proof (annotate_moves_spec _ _ _ _ _ _ _ _ _ _ Hloop)
    as (_ & Hn2 & Hl2 & _).
  apply annotate_moves_answers in Hloop as (new & -> & Hc2 & Hanswers).
  cbn [app] in *.
  apply bind_inv in Hbody as [([] & w3 & Hins & Hbody)|(e & _ & He)];
    [|discriminate].
  pose proof (insert_annotations_spec _ _ _ _ _ Hins) as (_ & Hc3 & Hl3 & _).
  apply insert_annotations_count in Hins.
  apply bind_inv in Hbody as [([] & w4 & Hupd & Hbody)|(e & _ & He)];
    [|discriminate].
  apply execute_inv in Hupd as (Hn4 & Hc4 & Hl4 & _).
  injection Hbody as <- <-. cbn [annotations total_moves].
  rewrite Hc1 in Hc2, Hanswers.
  repeat split.
  - congruence.
  - exact Hanswers.
  - lia.
  - rewrite length_map. reflexivity.
  - congruence.
Qed.

Lemma positions_evaluated_length (plies : list MoveAnnotation) :
  List.length (positions_evaluated plies) = 2 * List.length plies.
Proof.
  unfold positions_evaluated. induction plies as [|a plies IH]; [reflexivity|].
  cbn [flat_map List.length app]. rewrite IH. lia.
Qed.

End Anatomy.

(** ** Successful annotation: when, at what cost, recording what *)

Section Successful.

Variable chess : ChessLib.
Variable evaluate_position : nat -> string -> exception + EvaluationResult.
Variable db_down : nat -> bool.

Lemma replayed_moves (game_id : string) (board : Board chess) (n : nat)
    (moves : list (Move chess)) (rows : list Annotation.t) :
  replayed chess game_id board n moves rows ->
  map move_uci (map Annotation.fields rows) = map (uci chess) moves.
Proof.
  induction 1 as [|board n move moves r rows Hid Hn Hsan Huci]; [reflexivity|].
  cbn [map]. congruence.
Qed.

Lemma annotate_moves_healthy (game_id : string) (moves : list (Move chess)) :
  (forall n fen, exists position, evaluate_position n fen = inr position) ->
  forall board n acc w,
    exists rows w',
      annotate_moves chess evaluate_position game_id board moves n acc w =
        (Return rows, w').
Proof.
  intros Hengine. induction moves as [|move moves IH]; intros board n acc w.
  - exists acc, w. reflexivity.
  - simpl. unfold bind at 1. unfold stockfish_evaluate at 1.
    destruct (Hengine (List.length (engine_calls w)) (fen chess board))
      as [before ->].
    unfold bind at 1. unfold stockfish_evaluate at 1.
    cbn [engine_calls games move_annotations db_requests error_log].
    destruct (Hengine (List.length (engine_calls w ++ [fen chess board]))
                (fen chess (push chess board move))) as [after ->].
    apply IH.
Qed.

Lemma insert_annotations_healthy (rows : list Annotation.t) :
  (forall n, db_down n = false) ->
  forall w, exists w', insert_annotations db_down rows w = (Return tt, w').
Proof.
  intros Hdb. induction rows as [|row rows IH]; intros w.
  - exists w. reflexivity.
  - cbn [insert_annotations]. unfold bind at 1, insert_annotation, execute.
    rewrite Hdb. apply IH.
Qed.

Lemma annotate_game_healthy (game_id user_id : string) (w : World) (game : Game.t)
    (text : string) (chess_game : PgnGame chess) :
  (forall n fen, exists position, evaluate_position n fen = inr position) ->
  (forall n, db_down n = false) ->
  lookup_game game_id w = Some game ->
  Game.user_id game = user_id ->
  truthy (Game.analyzed game) = false ->
  pgn_or_moves_only game = Some text ->
  text <> "" ->
  read_game chess text = Some chess_game ->
  exists resp w',
    annotate_game chess evaluate_position db_down game_id user_id w = (Return resp, w').
Proof.
  intros Hengine Hdb Hgame Howner Hfalse Htext Hnonempty Hread.
  apply lookup_game_inv in Hgame as [rest Hfound].
  destruct text as [|c text]; [contradiction|].
  unfold annotate_game, try_except, annotate_game_body, bind at 1,
    select_game, execute.
  rewrite Hdb, Hfound, Howner, String.eqb_refl, Hfalse, Htext, Hread. cbn [negb].
  unfold bind at 1.
  match goal with
  | |- context [annotate_moves _ _ _ ?b ?ms ?n ?acc ?w0] =>
      destruct (annotate_moves_healthy game_id ms Hengine b n acc w0)
        as (rows & w2 & ->)
  end.
  unfold bind at 1.
  destruct (insert_annotations_healthy rows Hdb w2) as (w3 & ->).
  unfold bind at 1, update_analyzed, execute. rewrite Hdb.
  eexists. eexists. reflexivity.
Qed.

(** X3: with an engine that answers and a database that is up, the call on
    an owned game that is not marked analyzed and whose move text is read
    succeeds: it returns one annotation per ply, in the order of the moves,
    and leaves the game marked analyzed. *)
Theorem annotate_game_succeeds (game_id user_id : string) (w : World) (game : Game.t)
    (text : string) (chess_game : PgnGame chess) :
  (forall n fen, exists position, evaluate_position n fen = inr position) ->
  (forall n, db_down n = false) ->
  lookup_game game_id w = Some game ->
  Game.user_id game = user_id ->
  truthy (Game.analyzed game) = false ->
  pgn_or_moves_only game = Some text ->
  text <> "" ->
  read_game chess text = Some chess_game ->
  exists resp w',
    annotate_game chess evaluate_position db_down game_id user_id w = (Return resp, w') /\
    total_moves resp = List.length (mainline chess chess_game) /\
    map move_uci (annotations resp) = map (uci chess) (mainline chess chess_game) /\
    flagged game_id w' = true.
Proof.
  intros Hengine Hdb Hgame Howner Hfalse Htext Hnonempty Hread.
  destruct (annotate_game_healthy _ _ _ _ _ _ Hengine Hdb Hgame Howner Hfalse Htext
              Hnonempty Hread) as (resp & w' & Hrun).
  exists resp, w'. split; [exact Hrun|].
  destruct (annotate_game_fresh _ _ _ _ _ _ _ _ _ Hgame Hfalse Hrun)
    as (text' & chess_game' & rows & _ & Htext' & Hread' & Hrows & -> & _ & Hg).
  assert (text' = text) as -> by congruence.
  assert (chess_game' = chess_game) as -> by congruence.
  cbn [total_moves annotations response_of]. repeat split.
  - exact (replayed_length _ _ _ _ _ _ Hrows).
  - exact (replayed_moves _ _ _ _ _ Hrows).
  - exact (flagged_marked _ _ _ Hg _ Hgame).
Qed.

(** X4: a successful call on a game not marked analyzed sends to the engine
    the position before and the position after every ply, in order, that is
    two requests per ply, and sends [total_moves + 2] requests to the
    database. *)
Theorem annotate_game_cost (game_id user_id : string) (w w' : World)
    (resp : GameAnnotationResponse) (game : Game.t) :
  lookup_game game_id w = Some game ->
  truthy (Game.analyzed game) = false ->
  annotate_game chess evaluate_position db_down game_id user_id w = (Return resp, w') ->
  engine_calls w' = engine_calls w ++ positions_evaluated (annotations resp) /\
  List.length (engine_calls w') = List.length (engine_calls w) + 2 * total_moves resp /\
  db_requests w' = db_requests w + total_moves resp + 2.
Proof.
  intros Hgame Hfalse Hrun.
  destruct (annotate_game_fresh_anatomy _ _ _ _ _ _ _ _ _ Hgame Hfalse Hrun)
    as (Hcalls & _ & Hdb & Htotal & _).
  repeat split; try assumption.
  rewrite Hcalls, length_app, positions_evaluated_length, Htotal. reflexivity.
Qed.

(** X5: in a freshly produced annotation set, the evaluations of the ply at
    index [j] are the engine's answers to the requests [2j] and [2j+1] of
    the call, for the position before and the position after the ply, and
    [is_best_move] tells whether the move the engine suggested for the
    position before is the move played. *)
Theorem annotations_record_engine_answers (game_id user_id : string) (w w' : World)
    (resp : GameAnnotationResponse) (game : Game.t) :
  lookup_game game_id w = Some game ->
  truthy (Game.analyzed game) = false ->
  annotate_game chess evaluate_position db_down game_id user_id w = (Return resp, w') ->
  answers_recorded evaluate_position (List.length (engine_calls w)) (annotations resp).
Proof.
  intros Hgame Hfalse Hrun.
  exact (proj1 (proj2 (annotate_game_fresh_anatomy _ _ _ _ _ _ _ _ _
                         Hgame Hfalse Hrun))).
Qed.

(** X6: when the engine's evaluation of a position does not depend on when
    it is asked, the evaluation after a ply is the evaluation before the
    next one. *)
Theorem evaluations_continuous
    (same_answer : forall n m fen before after,
        evaluate_position n fen = inr before ->
        evaluate_position m fen = inr after ->
        evaluation before = evaluation after)
    (game_id user_id : string) (w w' : World)
    (resp : GameAnnotationResponse) (game : Game.t) :
  lookup_game game_id w = Some game ->
  truthy (Game.analyzed game) = false ->
  annotate_game chess evaluate_position db_down game_id user_id w = (Return resp, w') ->
  forall i a b,
    nth_error (annotations resp) i = Some a ->
    nth_error (annotations resp) (S i) = Some b ->
    evaluation_after a = evaluation_before b.
Proof.
  intros Hgame Hfalse Hrun i a b Ha Hb.
  destruct (annotate_game_fresh_anatomy _ _ _ _ _ _ _ _ _ Hgame Hfalse Hrun)
    as (_ & Hanswers & _).
  destruct (annotate_game_fresh _ _ _ _ _ _ _ _ _ Hgame Hfalse Hrun)
    as (text & chess_game & rows & _ & _ & _ & Hrows & Hresp & _).
  assert (Hfen : fen_after a = fen_before b).
  { rewrite Hresp in Ha, Hb. exact (replayed_continuous _ _ _ _ _ _ Hrows i a b Ha Hb). }
  destruct (Hanswers i a Ha) as (_ & after & _ & Hafter & _ & -> & _).
  destruct (Hanswers (S i) b Hb) as (before & _ & Hbefore & _ & -> & _).
  rewrite Hfen in Hafter. exact (same_answer _ _ _ _ _ Hafter Hbefore).
Qed.

(** X7: a game whose move text holds no move is marked analyzed with an
    empty annotation set, and the engine is not asked: the call succeeds
    whatever the engine would answer. *)
Theorem annotate_game_without_moves (game_id user_id : string) (w : World)
    (game : Game.t) (text : string) (chess_game : PgnGame chess) :
  lookup_game game_id w = Some game ->
  Game.user_id game = user_id ->
  truthy (Game.analyzed game) = false ->
  pgn_or_moves_only game = Some text ->
  text <> "" ->
  read_game chess text = Some chess_game ->
  mainline chess chess_game = [] ->
  db_down (db_requests w) = false ->
  db_down (S (db_requests w)) = false ->
  annotate_game chess evaluate_position db_down game_id user_id w =
    (Return (mkGameAnnotationResponse game_id 0 []),
     mkWorld (set_analyzed game_id (games w)) (move_annotations w)
       (S (S (db_requests w))) (engine_calls w) (error_log w)).
Proof.
  intros Hgame Howner Hfalse Htext Hnonempty Hread Hmoves Hdb0 Hdb1.
  apply lookup_game_inv in Hgame as [rest Hfound].
  destruct text as [|c text]; [contradiction|].
  unfold annotate_game, try_except, annotate_game_body, bind at 1,
    select_game, execute.
  rewrite Hdb0, Hfound, Howner, String.eqb_refl, Hfalse, Htext, Hread, Hmoves.
  cbn [negb annotate_moves]. unfold bind, ret, update_analyzed, execute.
  cbn [insert_annotations]. unfold ret.
  cbn [db_requests games move_annotations engine_calls error_log].
  rewrite Hdb1. reflexivity.
Qed.

End Successful.

(** ** What the annotation handlers keep *)

Section Kept.

Variable chess : ChessLib.
Variable evaluate_position : nat -> string -> exception + EvaluationResult.
Variable db_down : nat -> bool.

Lemma row_kept_refl (g : Game.t) : row_kept g g.
Proof. repeat split; auto. Qed.

Lemma row_kept_trans (g1 g2 g3 : Game.t) :
  row_kept g1 g2 -> row_kept g2 g3 -> row_kept g1 g3.
Proof.
  intros (Hi & Hu & Hp & Hm & Hf) (Hi' & Hu' & Hp' & Hm' & Hf').
  repeat split; try congruence. auto.
Qed.

Lemma rows_kept_refl (gs : list Game.t) : Forall2 row_kept gs gs.
Proof. induction gs; constructor; auto using row_kept_refl. Qed.

Lemma rows_kept_trans (gs1 gs2 gs3 : list Game.t) :
  Forall2 row_kept gs1 gs2 -> Forall2 row_kept gs2 gs3 -> Forall2 row_kept gs1 gs3.
Proof.
  intros H12. revert gs3. induction H12 as [|g1 g2 gs1 gs2 Hg _ IH]; intros gs3 H23.
  - inversion H23. constructor.
  - inversion H23 as [|? g3 ? gs3' Hg' Hrest]; subst.
    constructor; [exact (row_kept_trans _ _ _ Hg Hg') | exact (IH _ Hrest)].
Qed.

Lemma rows_kept_set_analyzed (c : string) (gs : list Game.t) :
  Forall2 row_kept gs (set_analyzed c gs).
Proof.
  unfold set_analyzed. induction gs as [|g gs IH]; cbn [map]; constructor; [|exact IH].
  destruct (String.eqb (Game.id g) c); [|apply row_kept_refl].
  repeat split.
Qed.

Lemma world_kept_refl (w : World) : world_kept w w.
Proof.
  split; [apply rows_kept_refl|].
  repeat split; exists []; rewrite app_nil_r; reflexivity.
Qed.

Lemma world_kept_trans (w1 w2 w3 : World) :
  world_kept w1 w2 -> world_kept w2 w3 -> world_kept w1 w3.
Proof.
  intros (Hg & [a Ha] & [c Hc] & [l Hl]) (Hg' & [a' Ha'] & [c' Hc'] & [l' Hl']).
  split; [exact (rows_kept_trans _ _ _ Hg Hg')|].
  repeat split.
  - exists (a ++ a'). rewrite Ha', Ha, app_assoc. reflexivity.
  - exists (c ++ c'). rewrite Hc', Hc, app_assoc. reflexivity.
  - exists (l ++ l'). rewrite Hl', Hl, app_assoc. reflexivity.
Qed.

Lemma annotate_game_world_kept (game_id user_id : string) (w w' : World)
    (r : outcome GameAnnotationResponse) :
  annotate_game chess evaluate_position db_down game_id user_id w = (r, w') ->
  world_kept w w'.
Proof.
  intros Hrun. apply annotate_game_run_of in Hrun.
  inversion Hrun as [detail ? [Hg Hm] Hc Hl
                    | game ? Hgame Howner Htrue [Hg Hm] Hc Hl
                    | chess_game detail calls ? Hto [Hg Hm] Hc Hl
                    | chess_game detail calls rows k i ? Hto Hc Hok Hrows Hk Hm Hg
                        Hi Hdown Hl
                    | chess_game calls rows ? Hto Hc Hok Hrows Hm Hg Hl]; subst;
    unfold world_kept; rewrite Hg, Hm, Hc, Hl;
    (split; [apply rows_kept_refl || apply rows_kept_set_analyzed|]);
    repeat split; eexists; try reflexivity; rewrite app_nil_r; reflexivity.
Qed.

(** X8: whatever its outcome, [annotate_game] keeps every game row in place
    with its id, owner and move text and never clears an analyzed flag, and
    it only adds to the stored annotations, to the engine requests and to
    the log. *)
Theorem annotate_game_keeps_world (game_id user_id : string) (w w' : World)
    (r : outcome GameAnnotationResponse) :
  annotate_game chess evaluate_position db_down game_id user_id w = (r, w') ->
  world_kept w w'.
Proof. apply annotate_game_world_kept. Qed.

Lemma process_games_world_kept (user_id : string) (ids : list string) :
  forall acc w r w',
    process_games chess evaluate_position db_down user_id ids acc w = (r, w') ->
    world_kept w w'.
Proof.
  induction ids as [|c rest IH]; intros acc w r w' Hrun.
  - injection Hrun as <- <-. apply world_kept_refl.
  - cbn [process_games] in Hrun.
    apply bind_inv in Hrun as [(acc1 & w1 & Hone & Hrest)|(e & Hone & _)].
    + apply IH in Hrest. refine (world_kept_trans _ _ _ _ Hrest).
      unfold try_except, bind at 1 in Hone.
      destruct (annotate_game chess evaluate_position db_down c user_id w)
        as [[resp|e] w0] eqn:Hcall; apply annotate_game_world_kept in Hcall.
      * injection Hone as <- <-. exact Hcall.
      * injection Hone as <- <-. refine (world_kept_trans _ _ _ Hcall _).
        split; [apply rows_kept_refl|]. fields.
        repeat split; eexists; try reflexivity; rewrite app_nil_r; reflexivity.
    + exfalso. unfold try_except, bind at 1 in Hone.
      destruct (annotate_game chess evaluate_position db_down c user_id w)
        as [[resp|e'] w0]; discriminate.
Qed.

(** X9: whatever its outcome, the batch call keeps every game row in place
    with its id, owner and move text and never clears an analyzed flag, and
    it only adds to the stored annotations, to the engine requests and to
    the log. *)
Theorem batch_keeps_world (limit : nat) (user_id : string) (w w' : World)
    (r : outcome BatchAnnotationResponse) :
  process_unannotated_games chess evaluate_position db_down limit user_id w = (r, w') ->
  world_kept w w'.
Proof.
  unfold process_unannotated_games, try_except.
  destruct ((games_response <- select_unanalyzed db_down limit ;;
             match games_response with
             | [] => ret (mkBatchAnnotationResponse 0 [])
             | _ :: _ =>
                 processed_game_ids <-
                   process_games chess evaluate_position db_down user_id
                     games_response [] ;;
                 ret (mkBatchAnnotationResponse (List.length processed_game_ids)
                        processed_game_ids)
             end) w) as [rb wb] eqn:Hbody.
  assert (Hselect : forall (x : outcome (list string)) w0,
            select_unanalyzed db_down limit w = (x, w0) -> world_kept w w0).
  { intros x w0 Hsel.
    apply execute_inv in Hsel
      as (_ & Hc & Hl & [(_ & _ & [Hg Hm])|(_ & _ & Hg & Hm)]);
      cbn in Hg, Hm; unfold world_kept; rewrite Hg, Hm, Hc, Hl;
      (split; [apply rows_kept_refl|]);
      repeat split; exists []; rewrite app_nil_r; reflexivity. }
  apply bind_inv in Hbody as [(ids & w0 & Hsel & Hbody)|(e & Hsel & ->)];
    apply Hselect in Hsel.
  - assert (Hkept : world_kept w wb).
    { destruct ids as [|c rest].
      - injection Hbody as <- <-. exact Hsel.
      - apply bind_inv in Hbody as [(processed & w1 & Hloop & Hbody)|(e & Hloop & ->)];
          apply process_games_world_kept in Hloop.
        + injection Hbody as <- <-. exact (world_kept_trans _ _ _ Hsel Hloop).
        + exact (world_kept_trans _ _ _ Hsel Hloop). }
    destruct rb as [resp|e]; intros H; injection H as <- <-; [exact Hkept|].
    refine (world_kept_trans _ _ _ Hkept _).
    split; [apply rows_kept_refl|]. fields.
    repeat split; eexists; try reflexivity; rewrite app_nil_r; reflexivity.
  - intros H. injection H as <- <-.
    refine (world_kept_trans _ _ _ Hsel _).
    split; [apply rows_kept_refl|]. fields.
    repeat split; eexists; try reflexivity; rewrite app_nil_r; reflexivity.
Qed.

End Kept.

(** ** Rows left by an earlier call, and the reach of the batch *)

Section Reach.

Variable chess : ChessLib.
Variable evaluate_position : nat -> string -> exception + EvaluationResult.
Variable db_down : nat -> bool.

Lemma insert_by_move_number_length (r : Annotation.t) (rows : list Annotation.t) :
  List.length (insert_by_move_number r rows) = S (List.length rows).
Proof.
  induction rows as [|r' rows IH]; [reflexivity|]. cbn [insert_by_move_number].
  destruct (Nat.leb _ _); cbn [List.length]; congruence.
Qed.

Lemma order_by_move_number_length (rows : list Annotation.t) :
  List.length (order_by_move_number rows) = List.length rows.
Proof.
  unfold order_by_move_number. induction rows as [|r rows IH]; [reflexivity|].
  cbn [fold_right List.length]. rewrite insert_by_move_number_length, IH. reflexivity.
Qed.

Lemma lookup_game_marked (game_id : string) (w w1 : World) (game : Game.t) :
  games w1 = set_analyzed game_id (games w) ->
  lookup_game game_id w = Some game ->
  lookup_game game_id w1 = Some (mark game).
Proof.
  intros Hg Hgame. apply lookup_game_inv in Hgame as [rest Hfound].
  unfold lookup_game. rewrite Hg, games_with_id_set_analyzed, String.eqb_refl, Hfound.
  reflexivity.
Qed.

(** X10: a successful call stores one row per ply on top of the rows already
    stored for the game, such as those an earlier failed call left behind:
    the next call then returns that many annotations more than the game has
    plies. *)
Theorem stored_set_grows_by_one_row_per_ply (game_id user_id : string)
    (w w1 : World) (resp : GameAnnotationResponse) (game : Game.t) :
  lookup_game game_id w = Some game ->
  truthy (Game.analyzed game) = false ->
  annotate_game chess evaluate_position db_down game_id user_id w = (Return resp, w1) ->
  List.length (persisted game_id w1) =
    List.length (persisted game_id w) + total_moves resp /\
  (db_down (db_requests w1) = false ->
   db_down (S (db_requests w1)) = false ->
   exists resp2 w2,
     annotate_game chess evaluate_position db_down game_id user_id w1 =
       (Return resp2, w2) /\
     total_moves resp2 = List.length (persisted game_id w) + total_moves resp).
Proof.
  intros Hgame Hfalse Hrun.
  destruct (annotate_game_fresh _ _ _ _ _ _ _ _ _ Hgame Hfalse Hrun)
    as (text & chess_game & rows & Howner & _ & _ & Hrows & -> & Hm & Hg).
  destruct (replayed_ordered _ _ _ _ _ _ Hrows) as (_ & _ & Hmine).
  assert (Hlen : List.length (persisted game_id w1) =
                 List.length (persisted game_id w) + List.length rows).
  { unfold persisted. rewrite !order_by_move_number_length, Hm.
    unfold rows_of_game in *. rewrite filter_app, length_app, Hmine. reflexivity. }
  cbn [total_moves response_of]. split; [exact Hlen|].
  intros Hdb0 Hdb1.
  pose proof (lookup_game_marked _ _ _ _ Hg Hgame) as Hgame1.
  eexists. eexists. split.
  - exact (annotate_game_stored _ _ _ _ _ _ _ Hgame1 Howner eq_refl Hdb0 Hdb1).
  - cbn [total_moves response_of]. exact Hlen.
Qed.

(** X11: the batch call reports at most [limit] games and at most as many
    as there are games not marked analyzed, and, [id] being a key of
    [games], no game twice. *)
Theorem batch_within_limit (limit : nat) (user_id : string) (w w' : World)
    (resp : BatchAnnotationResponse) :
  process_unannotated_games chess evaluate_position db_down limit user_id w =
    (Return resp, w') ->
  processed_games resp <= limit /\
  processed_games resp <=
    List.length
      (filter (fun g => match Game.analyzed g with Some false => true | _ => false end)
              (games w)) /\
  (NoDup (map Game.id (games w)) -> NoDup (game_ids resp)).
Proof.
  intros Hrun.
  apply process_unannotated_games_spec in Hrun
    as [(_ & detail & Hr)
       |(_ & ok & Hr & Hincl & Hlen & Hlog & Hown & Hrows & Hflag & Hfilter)];
    [discriminate|].
  injection Hr as ->. cbn [processed_games game_ids].
  pose proof (firstn_le_length limit
                (map Game.id
                   (filter (fun g => match Game.analyzed g with
                                     | Some false => true
                                     | _ => false
                                     end) (games w)))) as Hfirst.
  pose proof (length_firstn limit
                (map Game.id
                   (filter (fun g => match Game.analyzed g with
                                     | Some false => true
                                     | _ => false
                                     end) (games w)))) as Hmin.
  rewrite length_map in Hmin.
  unfold unanalyzed_ids in Hlen. repeat split.
  - lia.
  - lia.
  - intros Hkey. rewrite (Hfilter Hkey).
    apply NoDup_filter, (candidates_unflagged limit w Hkey).
Qed.

Lemma process_games_healthy (user_id : string) (ids : list string) :
  (forall n fen, exists position, evaluate_position n fen = inr position) ->
  (forall n, db_down n = false) ->
  forall acc w,
    NoDup ids ->
    (forall gid, In gid ids -> ready chess user_id gid w) ->
    exists w',
      process_games chess evaluate_position db_down user_id ids acc w =
        (Return (acc ++ ids), w') /\
      forall gid, In gid ids -> flagged gid w' = true.
Proof.
  intros Hengine Hdb. induction ids as [|c rest IH]; intros acc w Hnodup Hready.
  - exists w. rewrite app_nil_r. split; [reflexivity | contradiction].
  - inversion Hnodup as [|? ? Hnotin Hnodup']; subst.
    destruct (Hready c (or_introl eq_refl))
      as (game & text & chess_game & Hgame & Howner & Hfalse & Htext & Hne & Hread).
    destruct (annotate_game_healthy chess evaluate_position db_down _ _ _ _ _ _
                Hengine Hdb Hgame Howner Hfalse Htext Hne Hread)
      as (resp & w1 & Hcall).
    destruct (annotate_game_fresh _ _ _ _ _ _ _ _ _ Hgame Hfalse Hcall)
      as (_ & _ & _ & _ & _ & _ & _ & _ & _ & Hg).
    assert (Hready1 : forall gid, In gid rest -> ready chess user_id gid w1).
    { intros gid Hin.
      assert (Hne' : gid <> c) by (intros ->; exact (Hnotin Hin)).
      destruct (Hready gid (or_intror Hin))
        as (g & t & cg & Hg0 & Hrest).
      exists g, t, cg. split; [|exact Hrest].
      destruct (same_rows _ _ _ (rows_kept _ _ _ Hg _ Hne')) as (-> & _).
      exact Hg0. }
    destruct (IH (acc ++ [c]) w1 Hnodup' Hready1) as (w' & Hrest & Hflags).
    exists w'. split.
    + cbn [process_games]. unfold bind at 1, try_except, bind at 1.
      rewrite Hcall. unfold ret at 1. rewrite Hrest, <- app_assoc. reflexivity.
    + intros gid [<-|Hin]; [|exact (Hflags gid Hin)].
      apply process_games_spec in Hrest
        as (_ & _ & _ & _ & _ & _ & _ & _ & Hmono & _).
      apply Hmono. exact (flagged_marked _ _ _ Hg _ Hgame).
Qed.

(** X12: with an engine that answers and a database that is up, [id] being
    a key of [games], a batch whose candidates are all ready to be annotated
    for the requester reports every candidate, in order, and leaves each of
    them marked analyzed. *)
Theorem batch_processes_every_ready_game (limit : nat) (user_id : string) (w : World) :
  (forall n fen, exists position, evaluate_position n fen = inr position) ->
  (forall n, db_down n = false) ->
  NoDup (map Game.id (games w)) ->
  (forall gid, In gid (unanalyzed_ids limit (games w)) -> ready chess user_id gid w) ->
  exists w',
    process_unannotated_games chess evaluate_position db_down limit user_id w =
      (Return (mkBatchAnnotationResponse
                 (List.length (unanalyzed_ids limit (games w)))
                 (unanalyzed_ids limit (games w))), w') /\
    forall gid, In gid (unanalyzed_ids limit (games w)) -> flagged gid w' = true.
Proof.
  intros Hengine Hdb Hkey Hready.
  destruct (candidates_unflagged limit w Hkey) as [Hnodup _].
  unfold process_unannotated_games, try_except, bind at 1, select_unanalyzed, execute.
  rewrite Hdb.
  destruct (unanalyzed_ids limit (games w)) as [|c rest] eqn:Hids.
  - eexists. split; [reflexivity | contradiction].
  - destruct (process_games_healthy user_id (c :: rest) Hengine Hdb []
                (mkWorld (games w) (move_annotations w) (S (db_requests w))
                   (engine_calls w) (error_log w)) Hnodup)
      as (w' & Hrun & Hflags).
    { intros gid Hin. destruct (Hready gid Hin) as (g & t & cg & Hg0 & Hrest).
      exists g, t, cg. split; [exact Hg0 | exact Hrest]. }
    exists w'. split; [|exact Hflags].
    unfold bind at 1. rewrite Hrun. reflexivity.
Qed.

End Reach.

(** ** Reading the stored annotations *)

Section Reading.

Variable chess : ChessLib.
Variable evaluate_position : nat -> string -> exception + EvaluationResult.
Variable db_down : nat -> bool.

(** The ways a call of [get_game_annotations] can end. *)
Lemma get_game_annotations_cases (game_id user_id : string) (w w' : World)
    (r : outcome (list MoveAnnotation)) :
  get_game_annotations db_down game_id user_id w = (r, w') ->
  no_writes w w' /\
  engine_calls w' = engine_calls w /\
  ((exists detail,
      r = Raise (HTTPException 500 ("Error retrieving annotations: " ++ detail)) /\
      error_log w' = error_log w ++ ["Error retrieving annotations: " ++ detail]%string) \/
   (exists game,
      lookup_game game_id w = Some game /\
      Game.user_id game = user_id /\
      r = Return (map Annotation.fields (persisted game_id w)) /\
      error_log w' = error_log w)).
Proof.
  unfold get_game_annotations, try_except.
  destruct ((game_response <- select_user_id db_down game_id ;;
             match game_response with
             | [] => raise (HTTPException 404 "Game not found")
             | owner_id :: _ =>
                 if negb (String.eqb owner_id user_id)
                 then raise (HTTPException 403 "Unauthorized access to this game")
                 else
                   annotations_response <- select_annotations db_down game_id ;;
                   ret (map Annotation.fields annotations_response)
             end) w) as [rb wb] eqn:Hbody.
  assert (Hfail : forall e, no_writes w wb -> engine_calls wb = engine_calls w ->
            error_log wb = error_log w ->
            (logging_error ("Error retrieving annotations: " ++ str e) ;;;
             raise (HTTPException 500 ("Error retrieving annotations: " ++ str e))) wb =
              (r, w') ->
            no_writes w w' /\
            engine_calls w' = engine_calls w /\
            ((exists detail,
                r = Raise (HTTPException 500
                             ("Error retrieving annotations: " ++ detail)) /\
                error_log w' =
                  error_log w ++ ["Error retrieving annotations: " ++ detail]%string) \/
             (exists game,
                lookup_game game_id w = Some game /\
                Game.user_id game = user_id /\
                r = Return (map Annotation.fields (persisted game_id w)) /\
                error_log w' = error_log w))).
  { intros e [Hg Hm] Hc Hl H. unfold bind, logging_error, raise in H.
    injection H as <- <-. fields. repeat split; try assumption.
    left. exists (str e). split; [reflexivity | rewrite Hl; reflexivity]. }
  apply bind_inv in Hbody as [(found & w1 & Hsel & Hbody)|(e & Hsel & ->)];
    apply execute_inv in Hsel as (Hn1 & Hc1 & Hl1 & Hsel).
  2:{ destruct Hsel as [(_ & _ & Hnw)|(_ & Hr & _)]; [|discriminate].
      apply Hfail; assumption. }
  destruct Hsel as [(_ & Hr & _)|(_ & Hr & Hg1 & Hm1)]; [discriminate|].
  cbn in Hr, Hg1, Hm1. injection Hr as ->.
  destruct (games_with_id game_id (games w)) as [|game rest] eqn:Hfound; cbn [map] in Hbody.
  { injection Hbody as <- <-. apply Hfail; [split|..]; assumption. }
  apply games_with_id_owner in Hfound.
  destruct (String.eqb (Game.user_id game) user_id) eqn:Howner; cbn [negb] in Hbody.
  2:{ injection Hbody as <- <-. apply Hfail; [split|..]; assumption. }
  apply String.eqb_eq in Howner.
  apply bind_inv in Hbody as [(rows & w2 & Hsel & Hbody)|(e & Hsel & ->)];
    apply execute_inv in Hsel as (Hn2 & Hc2 & Hl2 & Hsel).
  - destruct Hsel as [(_ & Hr & _)|(_ & Hr & Hg2 & Hm2)]; [discriminate|].
    cbn in Hr, Hg2, Hm2. injection Hr as ->. injection Hbody as <- <-.
    intros H. injection H as <- <-. rewrite Hm1.
    repeat split; try congruence.
    right. exists game. repeat split; congruence.
  - destruct Hsel as [(_ & _ & [Hg2 Hm2])|(_ & Hr & _)]; [|discriminate].
    apply Hfail; [split|..]; congruence.
Qed.

(** The call by the owner when the database answers both requests. *)
Lemma get_game_annotations_stored (game_id user_id : string) (w : World)
    (game : Game.t) :
  lookup_game game_id w = Some game ->
  Game.user_id game = user_id ->
  db_down (db_requests w) = false ->
  db_down (S (db_requests w)) = false ->
  get_game_annotations db_down game_id user_id w =
    (Return (map Annotation.fields (persisted game_id w)),
     mkWorld (games w) (move_annotations w) (S (S (db_requests w)))
             (engine_calls w) (error_log w)).
Proof.
  intros Hgame Howner Hdb0 Hdb1.
  apply lookup_game_inv in Hgame as [rest Hfound].
  unfold get_game_annotations, try_except, bind at 1, select_user_id, execute.
  rewrite Hdb0, Hfound. cbn [map]. rewrite Howner, String.eqb_refl. cbn [negb].
  unfold bind, select_annotations, execute.
  cbn [db_requests games move_annotations engine_calls error_log].
  rewrite Hdb1. reflexivity.
Qed.

(** X13: [get_game_annotations] only reads: whatever its outcome, both
    tables are as before and the engine is not asked. *)
Theorem get_game_annotations_reads_only (game_id user_id : string) (w w' : World)
    (r : outcome (list MoveAnnotation)) :
  get_game_annotations db_down game_id user_id w = (r, w') ->
  no_writes w w' /\ engine_calls w' = engine_calls w.
Proof.
  intros Hrun. apply get_game_annotations_cases in Hrun as (Hnw & Hc & _).
  split; assumption.
Qed.

(** X14: every failure of [get_game_annotations] is answered 500 and logged;
    the 404 of a missing game and the 403 of a game of another owner are
    raised inside the [try] and reach the caller as 500. *)
Theorem get_game_annotations_failures_are_500 (game_id user_id : string) (w : World) :
  (forall e w',
     get_game_annotations db_down game_id user_id w = (Raise e, w') ->
     exists detail,
       e = HTTPException 500 ("Error retrieving annotations: " ++ detail) /\
       error_log w' = error_log w ++ ["Error retrieving annotations: " ++ detail]%string) /\
  (db_down (db_requests w) = false ->
   lookup_game game_id w = None ->
   fst (get_game_annotations db_down game_id user_id w) =
     Raise (HTTPException 500 "Error retrieving annotations: 404: Game not found")) /\
  (db_down (db_requests w) = false ->
   forall game,
     lookup_game game_id w = Some game ->
     Game.user_id game <> user_id ->
     fst (get_game_annotations db_down game_id user_id w) =
       Raise (HTTPException 500
                "Error retrieving annotations: 403: Unauthorized access to this game")).
Proof.
  split; [|split].
  - intros e w' Hrun.
    apply get_game_annotations_cases in Hrun
      as (_ & _ & [(detail & Hr & Hl)|(game & _ & _ & Hr & _)]); [|discriminate].
    injection Hr as ->. exists detail. split; [reflexivity | exact Hl].
  - intros Hdb0 Hnone.
    unfold get_game_annotations, try_except, bind at 1, select_user_id, execute.
    rewrite Hdb0. unfold lookup_game in Hnone.
    destruct (games_with_id game_id (games w)); [reflexivity | discriminate].
  - intros Hdb0 game Hgame Hother.
    apply lookup_game_inv in Hgame as [rest Hfound].
    apply String.eqb_neq in Hother.
    unfold get_game_annotations, try_except, bind at 1, select_user_id, execute.
    rewrite Hdb0, Hfound. cbn [map]. rewrite Hother. reflexivity.
Qed.

(** X15: asked by the owner, with the database answering,
    [get_game_annotations] returns the rows stored for the game, marked
    analyzed or not; for a game marked analyzed they are the annotations
    [annotate_game] returns. *)
Theorem get_game_annotations_returns_stored (game_id user_id : string) (w : World)
    (game : Game.t) :
  lookup_game game_id w = Some game ->
  Game.user_id game = user_id ->
  db_down (db_requests w) = false ->
  db_down (S (db_requests w)) = false ->
  exists w',
    get_game_annotations db_down game_id user_id w =
      (Return (map Annotation.fields (persisted game_id w)), w') /\
    (truthy (Game.analyzed game) = true ->
     exists resp w'',
       annotate_game chess evaluate_position db_down game_id user_id w =
         (Return resp, w'') /\
       annotations resp = map Annotation.fields (persisted game_id w)).
Proof.
  intros Hgame Howner Hdb0 Hdb1. eexists. split.
  - exact (get_game_annotations_stored _ _ _ _ Hgame Howner Hdb0 Hdb1).
  - intros Htrue. eexists. eexists. split.
    + exact (annotate_game_stored _ _ _ _ _ _ _ Hgame Howner Htrue Hdb0 Hdb1).
    + reflexivity.
Qed.

(** After a first successful call on a game with no stored row, the stored
    set is the produced set. *)
Lemma persisted_after_fresh (game_id user_id : string) (w w1 : World)
    (resp : GameAnnotationResponse) (game : Game.t) :
  lookup_game game_id w = Some game ->
  truthy (Game.analyzed game) = false ->
  rows_of_game game_id (move_annotations w) = [] ->
  annotate_game chess evaluate_position db_down game_id user_id w = (Return resp, w1) ->
  Game.user_id game = user_id /\
  lookup_game game_id w1 = Some (mark game) /\
  map Annotation.fields (persisted game_id w1) = annotations resp.
Proof.
  intros Hgame Hfalse Hnone Hrun.
  destruct (annotate_game_fresh _ _ _ _ _ _ _ _ _ Hgame Hfalse Hrun)
    as (text & chess_game & rows & Howner & _ & _ & Hrows & -> & Hm & Hg).
  destruct (replayed_ordered _ _ _ _ _ _ Hrows) as (_ & Hsorted & Hmine).
  repeat split.
  - exact Howner.
  - exact (lookup_game_marked _ _ _ _ Hg Hgame).
  - unfold persisted. rewrite Hm. unfold rows_of_game in *.
    rewrite filter_app, Hnone, Hmine. cbn [app]. rewrite Hsorted. reflexivity.
Qed.

(** X16: the annotations a first successful [annotate_game] returns for a
    game with no stored row are the ones [get_game_annotations] then
    returns to the owner, in the same order. *)
Theorem annotations_are_read_back (game_id user_id : string) (w w1 : World)
    (resp : GameAnnotationResponse) (game : Game.t) :
  lookup_game game_id w = Some game ->
  truthy (Game.analyzed game) = false ->
  rows_of_game game_id (move_annotations w) = [] ->
  annotate_game chess evaluate_position db_down game_id user_id w = (Return resp, w1) ->
  db_down (db_requests w1) = false ->
  db_down (S (db_requests w1)) = false ->
  exists w2,
    get_game_annotations db_down game_id user_id w1 = (Return (annotations resp), w2).
Proof.
  intros Hgame Hfalse Hnone Hrun Hdb0 Hdb1.
  destruct (persisted_after_fresh _ _ _ _ _ _ Hgame Hfalse Hnone Hrun)
    as (Howner & Hgame1 & <-).
  eexists. exact (get_game_annotations_stored _ _ _ _ Hgame1 Howner Hdb0 Hdb1).
Qed.

End Reading.

(** ** Moves and engine queries *)

Section MoveEndpoint.

Variable rules : ChessRules.

(** The three ways [make_move] ends, read off the request. *)
Lemma make_move_cases (move_request : MoveRequest.t) :
  (Endpoints.make_move rules move_request =
     inl (Other (HTTPException 400 "Invalid FEN or move format")) /\
   ((exists message,
       board_of_fen rules (MoveRequest.fen move_request) = inl message) \/
    (exists message,
       from_uci rules (MoveRequest.move move_request) = inl message))) \/
  (Endpoints.make_move rules move_request =
     inl (Other (HTTPException 400 "Illegal move")) /\
   exists board move,
     board_of_fen rules (MoveRequest.fen move_request) = inr board /\
     from_uci rules (MoveRequest.move move_request) = inr move /\
     is_legal rules board move = false) \/
  (exists board move,
     board_of_fen rules (MoveRequest.fen move_request) = inr board /\
     from_uci rules (MoveRequest.move move_request) = inr move /\
     is_legal rules board move = true /\
     Endpoints.make_move rules move_request =
       inr (MoveResponse.mk
              (fen (replay rules) (push (replay rules) board move))
              (is_check rules (push (replay rules) board move))
              (is_checkmate rules (push (replay rules) board move))
              (is_stalemate rules (push (replay rules) board move))
              (is_game_over rules (push (replay rules) board move))
              (map (uci (replay rules))
                 (legal_moves rules (push (replay rules) board move))))).
Proof.
  unfold Endpoints.make_move.
  destruct (board_of_fen rules (MoveRequest.fen move_request)) as [m|board] eqn:Hfen.
  { left. split; [reflexivity | left; eauto]. }
  destruct (from_uci rules (MoveRequest.move move_request)) as [m|move] eqn:Huci.
  { left. split; [reflexivity | right; eauto]. }
  destruct (is_legal rules board move) eqn:Hlegal.
  - right. right. exists board, move.
    split; [reflexivity|]. split; [reflexivity|]. split; [exact Hlegal|].
    reflexivity.
  - right. left. split; [reflexivity|]. exists board, move.
    split; [reflexivity|]. split; [reflexivity | exact Hlegal].
Qed.

(** X17: [make_move] fails with status 400 only, never with a [ValueError]
    or a 500: "Invalid FEN or move format" when the position or the move is
    not read, and "Illegal move", which its [except ValueError] lets through,
    exactly when both are read and the move is not legal there; it succeeds
    exactly when the move is legal, and then describes the position after
    the move. *)
Theorem make_move_answers (move_request : MoveRequest.t) :
  (forall e, Endpoints.make_move rules move_request = inl e ->
     e = Other (HTTPException 400 "Invalid FEN or move format") \/
     e = Other (HTTPException 400 "Illegal move")) /\
  (Endpoints.make_move rules move_request =
     inl (Other (HTTPException 400 "Illegal move")) <->
   exists board move,
     board_of_fen rules (MoveRequest.fen move_request) = inr board /\
     from_uci rules (MoveRequest.move move_request) = inr move /\
     is_legal rules board move = false) /\
  (forall resp,
     Endpoints.make_move rules move_request = inr resp <->
     exists board move,
       board_of_fen rules (MoveRequest.fen move_request) = inr board /\
       from_uci rules (MoveRequest.move move_request) = inr move /\
       is_legal rules board move = true /\
       resp = MoveResponse.mk
                (fen (replay rules) (push (replay rules) board move))
                (is_check rules (push (replay rules) board move))
                (is_checkmate rules (push (replay rules) board move))
                (is_stalemate rules (push (replay rules) board move))
                (is_game_over rules (push (replay rules) board move))
                (map (uci (replay rules))
                   (legal_moves rules (push (replay rules) board move)))).
Proof.
  destruct (make_move_cases move_request)
    as [(Hrun & Hwhy)
       |[(Hrun & board & move & Hfen & Huci & Hlegal)
        |(board & move & Hfen & Huci & Hlegal & Hrun)]];
    rewrite Hrun; split; [| split | | split | | split].
  - intros e He. injection He as <-. left. reflexivity.
  - split; [discriminate|].
    intros (board & move & Hfen & Huci & _).
    destruct Hwhy as [[m Hm]|[m Hm]]; congruence.
  - intros resp. split; [discriminate|].
    intros (board & move & Hfen & Huci & _).
    destruct Hwhy as [[m Hm]|[m Hm]]; congruence.
  - intros e He. injection He as <-. right. reflexivity.
  - split; [intros _; exists board, move; auto | reflexivity].
  - intros resp. split; [discriminate|].
    intros (board' & move' & Hfen' & Huci' & Hlegal' & _).
    assert (board' = board) as -> by congruence.
    assert (move' = move) as -> by congruence. congruence.
  - discriminate.
  - split; [discriminate|].
    intros (board' & move' & Hfen' & Huci' & Hlegal').
    assert (board' = board) as -> by congruence.
    assert (move' = move) as -> by congruence. congruence.
  - intros resp. split.
    + intros H. injection H as <-. exists board, move. auto.
    + intros (board' & move' & Hfen' & Huci' & _ & ->).
      assert (board' = board) as -> by congruence.
      assert (move' = move) as -> by congruence. reflexivity.
Qed.

(** X18: when the library reads back what it printed of the position
    reached, every move [make_move] lists in [legal_moves] is accepted by
    [make_move] on the position it returned in [fen]. *)
Theorem listed_moves_are_accepted (move_request : MoveRequest.t)
    (board : Board (replay rules)) (move : Move (replay rules)) :
  board_of_fen rules (MoveRequest.fen move_request) = inr board ->
  from_uci rules (MoveRequest.move move_request) = inr move ->
  is_legal rules board move = true ->
  reads_back rules (push (replay rules) board move) ->
  exists resp,
    Endpoints.make_move rules move_request = inr resp /\
    forall next_move, In next_move (MoveResponse.legal_moves resp) ->
      exists resp',
        Endpoints.make_move rules
          (MoveRequest.mk (MoveResponse.fen resp) next_move) = inr resp'.
Proof.
  intros Hfen Huci Hlegal (next & Hnext & Hmoves).
  eexists. split.
  - unfold Endpoints.make_move. rewrite Hfen, Huci, Hlegal. reflexivity.
  - cbn [MoveResponse.legal_moves MoveResponse.fen]. intros next_move Hin.
    apply in_map_iff in Hin as (m & <- & Hin).
    destruct (Hmoves m Hin) as [Hm Hok].
    unfold Endpoints.make_move. cbn [MoveRequest.fen MoveRequest.move].
    rewrite Hnext, Hm, Hok. eexists. reflexivity.
Qed.

End MoveEndpoint.

Lemma listed_moves_are_accepted_witness :
  exists resp,
    Endpoints.make_move SampleRules.rules (MoveRequest.mk Sample.start_fen "e2e4") =
      inr resp /\
    forall next_move, In next_move (MoveResponse.legal_moves resp) ->
      exists resp',
        Endpoints.make_move SampleRules.rules
          (MoveRequest.mk (MoveResponse.fen resp) next_move) = inr resp'.
Proof.
  apply (listed_moves_are_accepted SampleRules.rules
           (MoveRequest.mk Sample.start_fen "e2e4")
           (Sample.mkBoard true Sample.start_fen) "e2e4"); try reflexivity.
  exists (Sample.mkBoard false Sample.after_e4). split; [reflexivity|].
  intros m [<-|[]]. split; reflexivity.
Defined.

Section EngineEndpoints.

Variable best_move_service : string -> Z -> float -> raised + BestMoveResult.t.
Variable evaluation_service : string -> option Z -> raised + EvaluationResponse.t.

(** X19: the engine handlers answer what the service raises with an HTTP
    error, 400 "Invalid FEN format" for a [ValueError] and 500 for anything
    else, and pass a result on unchanged; the 400 [get_best_move] raises
    itself when the service has no move is caught by its own
    [except Exception], so the caller is never answered "No legal moves
    available" with status 400 but gets a 500. *)
Theorem engine_handlers_answers (best : BestMoveRequest.t) (request : EvaluationRequest.t) :
  Endpoints.get_best_move best_move_service best <>
    inl (Other (HTTPException 400 "No legal moves available")) /\
  (forall result,
     best_move_service (BestMoveRequest.fen best) (BestMoveRequest.skill_level best)
       (BestMoveRequest.move_time best) = inr result ->
     (BestMoveResult.move result = None \/ BestMoveResult.move result = Some "") ->
     Endpoints.get_best_move best_move_service best =
       inl (Other (HTTPException 500 "Engine error: 400: No legal moves available"))) /\
  (forall result c s,
     best_move_service (BestMoveRequest.fen best) (BestMoveRequest.skill_level best)
       (BestMoveRequest.move_time best) = inr result ->
     BestMoveResult.move result = Some (String c s) ->
     Endpoints.get_best_move best_move_service best =
       inr (BestMoveResponse.mk (String c s) (BestMoveResult.evaluation result)
              (BestMoveResult.is_mate result) (BestMoveResult.mate_in result))) /\
  (forall e,
     best_move_service (BestMoveRequest.fen best) (BestMoveRequest.skill_level best)
       (BestMoveRequest.move_time best) = inl e ->
     Endpoints.get_best_move best_move_service best =
       inl (Other (match e with
                   | ValueError _ => HTTPException 400 "Invalid FEN format"
                   | Other _ => HTTPException 500 ("Engine error: " ++ str_raised e)
                   end))) /\
  (forall result,
     evaluation_service (EvaluationRequest.fen request) (EvaluationRequest.depth request) =
       inr result ->
     Endpoints.evaluate_position evaluation_service request = inr result) /\
  (forall e,
     evaluation_service (EvaluationRequest.fen request) (EvaluationRequest.depth request) =
       inl e ->
     Endpoints.evaluate_position evaluation_service request =
       inl (Other (match e with
                   | ValueError _ => HTTPException 400 "Invalid FEN format"
                   | Other _ => HTTPException 500 ("Engine error: " ++ str_raised e)
                   end))).
Proof.
  unfold Endpoints.get_best_move, Endpoints.evaluate_position.
  repeat split.
  - destruct (best_move_service _ _ _) as [[m|e]|result]; cbn; try discriminate.
    destruct (BestMoveResult.move result) as [[|c s]|]; discriminate.
  - intros result -> [Hnone|Hempty]; [rewrite Hnone | rewrite Hempty]; reflexivity.
  - intros result c s -> ->. reflexivity.
  - intros e ->. destruct e; reflexivity.
  - intros result ->. destruct result; reflexivity.
  - intros e ->. destruct e; reflexivity.
Qed.

End EngineEndpoints.

Lemma engine_handlers_answers_witness :
  Endpoints.get_best_move SampleRules.best_move_service
    (BestMoveRequest.mk SampleRules.mated_fen 20 1.0%float) =
    inl (Other (HTTPException 500 "Engine error: 400: No legal moves available")) /\
  Endpoints.evaluate_position SampleRules.evaluation_service_down
    (EvaluationRequest.mk Sample.start_fen None) =
    inl (Other (HTTPException 500 "Engine error: engine unavailable")).
Proof.
  pose proof (engine_handlers_answers SampleRules.best_move_service
                SampleRules.evaluation_service_down
                (BestMoveRequest.mk SampleRules.mated_fen 20 1.0%float)
                (EvaluationRequest.mk Sample.start_fen None))
    as (_ & Hnone & _ & _ & _ & Hdown).
  split.
  - exact (Hnone _ eq_refl (or_introl eq_refl)).
  - exact (Hdown _ eq_refl).
Defined.

(** ** The further properties at work on the sample games *)

Lemma sample_engine_answers :
  forall n fen, exists position, Sample.engine n fen = inr position.
Proof. intros n fen. eexists. reflexivity. Qed.

Lemma annotate_game_succeeds_witness :
  exists resp w',
    annotate_game Sample.lib Sample.engine Sample.db_up "g1" "alice"
      (Sample.world [Sample.open_game]) = (Return resp, w') /\
    total_moves resp = 2 /\
    map move_uci (annotations resp) = ["e2e4"; "e7e5"] /\
    flagged "g1" w' = true.
Proof.
  refine (annotate_game_succeeds Sample.lib Sample.engine Sample.db_up "g1" "alice"
            (Sample.world [Sample.open_game]) Sample.open_game Sample.open_game_pgn
            (Sample.mkBoard true Sample.start_fen, ["e2e4"; "e7e5"])
            sample_engine_answers (fun n => eq_refl) eq_refl eq_refl eq_refl eq_refl
            _ eq_refl).
  discriminate.
Defined.

Lemma annotate_game_cost_witness :
  exists resp w',
    annotate_game Sample.lib Sample.engine Sample.db_up "g1" "alice"
      (Sample.world [Sample.open_game]) = (Return resp, w') /\
    List.length (engine_calls w') = 4 /\ db_requests w' = 4.
Proof.
  run_sample.
  destruct (annotate_game_cost Sample.lib Sample.engine Sample.db_up "g1" "alice"
              (Sample.world [Sample.open_game]) _ _ Sample.open_game
              eq_refl eq_refl Hrun) as (_ & Hcalls & Hdb).
  split; [exact Hcalls | exact Hdb].
Defined.

Lemma annotations_record_engine_answers_witness :
  exists resp w',
    annotate_game Sample.lib Sample.engine Sample.db_up "g1" "alice"
      (Sample.world [Sample.open_game]) = (Return resp, w') /\
    answers_recorded Sample.engine 0 (annotations resp).
Proof.
  run_sample.
  exact (annotations_record_engine_answers Sample.lib Sample.engine Sample.db_up
           "g1" "alice" (Sample.world [Sample.open_game]) _ _ Sample.open_game
           eq_refl eq_refl Hrun).
Defined.

Lemma sample_engine_same_answer :
  forall n m fen before after,
    Sample.engine n fen = inr before ->
    Sample.engine m fen = inr after ->
    evaluation before = evaluation after.
Proof.
  unfold Sample.engine. intros n m fen before after H1 H2. congruence.
Qed.

Lemma evaluations_continuous_witness :
  exists resp w',
    annotate_game Sample.lib Sample.engine Sample.db_up "g1" "alice"
      (Sample.world [Sample.open_game]) = (Return resp, w') /\
    forall i a b,
      nth_error (annotations resp) i = Some a ->
      nth_error (annotations resp) (S i) = Some b ->
      evaluation_after a = evaluation_before b.
Proof.
  run_sample.
  exact (evaluations_continuous Sample.lib Sample.engine Sample.db_up
           sample_engine_same_answer
           "g1" "alice" (Sample.world [Sample.open_game]) _ _ Sample.open_game
           eq_refl eq_refl Hrun).
Defined.

(** The engine is unreachable and the game has no move: the game is marked
    analyzed all the same. *)
Lemma annotate_game_without_moves_witness :
  exists w',
    annotate_game SampleRules.lib_with_headers SampleRules.engine_down Sample.db_up
      "g5" "alice" (Sample.world [SampleRules.headers_game]) =
      (Return (mkGameAnnotationResponse "g5" 0 []), w') /\
    flagged "g5" w' = true /\ engine_calls w' = [].
Proof.
  eexists. split.
  - refine (annotate_game_without_moves SampleRules.lib_with_headers
              SampleRules.engine_down Sample.db_up "g5" "alice"
              (Sample.world [SampleRules.headers_game]) SampleRules.headers_game
              SampleRules.headers_pgn (Sample.mkBoard true Sample.start_fen, [])
              eq_refl eq_refl eq_refl eq_refl _ eq_refl eq_refl eq_refl eq_refl).
    discriminate.
  - split; reflexivity.
Defined.

Lemma annotate_game_keeps_world_witness :
  exists r w',
    annotate_game Sample.lib Sample.engine (Sample.db_failing_at 2) "g1" "alice"
      (Sample.world [Sample.open_game; Sample.bobs_game]) = (r, w') /\
    world_kept (Sample.world [Sample.open_game; Sample.bobs_game]) w'.
Proof.
  run_sample.
  exact (annotate_game_keeps_world Sample.lib Sample.engine (Sample.db_failing_at 2)
           "g1" "alice" _ _ _ Hrun).
Defined.

Lemma batch_keeps_world_witness :
  exists r w',
    process_unannotated_games Sample.lib Sample.engine Sample.db_up 3 "alice"
      (Sample.world [Sample.open_game; Sample.bobs_game; Sample.kings_game]) = (r, w') /\
    world_kept (Sample.world [Sample.open_game; Sample.bobs_game; Sample.kings_game]) w'.
Proof.
  run_sample.
  exact (batch_keeps_world Sample.lib Sample.engine Sample.db_up 3 "alice" _ _ _ Hrun).
Defined.

(** The retry after the failed insert: three rows are stored for a game of
    two plies, and the next call returns three annotations. *)
Lemma stored_set_grows_by_one_row_per_ply_witness :
  exists resp w1,
    annotate_game Sample.lib Sample.engine (Sample.db_failing_at 2) "g1" "alice"
      SampleRules.partial_world = (Return resp, w1) /\
    total_moves resp = 2 /\
    List.length (persisted "g1" w1) = 3 /\
    exists resp2 w2,
      annotate_game Sample.lib Sample.engine (Sample.db_failing_at 2) "g1" "alice" w1 =
        (Return resp2, w2) /\
      total_moves resp2 = 3.
Proof.
  run_sample. split; [reflexivity|].
  destruct (stored_set_grows_by_one_row_per_ply Sample.lib Sample.engine
              (Sample.db_failing_at 2) "g1" "alice" SampleRules.partial_world _ _
              Sample.open_game eq_refl eq_refl Hrun) as (Hlen & Hnext).
  split; [exact Hlen|].
  destruct (Hnext eq_refl eq_refl) as (resp2 & w2 & Hsecond & Htotal).
  exists resp2, w2. split; [exact Hsecond | exact Htotal].
Defined.

Lemma batch_within_limit_witness :
  exists resp w',
    process_unannotated_games Sample.lib Sample.engine Sample.db_up 1 "alice"
      (Sample.world [Sample.open_game; Sample.kings_game]) = (Return resp, w') /\
    processed_games resp <= 1.
Proof.
  run_sample.
  exact (proj1 (batch_within_limit Sample.lib Sample.engine Sample.db_up 1 "alice"
                  _ _ _ Hrun)).
Defined.

Lemma batch_processes_every_ready_game_witness :
  exists w',
    process_unannotated_games Sample.lib Sample.engine Sample.db_up 5 "alice"
      (Sample.world [Sample.open_game; Sample.kings_game]) =
      (Return (mkBatchAnnotationResponse 2 ["g1"; "g2"]), w') /\
    forall gid, In gid ["g1"; "g2"] -> flagged gid w' = true.
Proof.
  refine (batch_processes_every_ready_game Sample.lib Sample.engine Sample.db_up 5
            "alice" (Sample.world [Sample.open_game; Sample.kings_game])
            sample_engine_answers (fun n => eq_refl) _ _).
  - repeat constructor; cbn; intuition discriminate.
  - intros gid [<-|[<-|[]]].
    + exists Sample.open_game, Sample.open_game_pgn,
        (Sample.mkBoard true Sample.start_fen, ["e2e4"; "e7e5"]).
      repeat split; try reflexivity. discriminate.
    + exists Sample.kings_game, Sample.kings_pgn,
        (Sample.mkBoard false Sample.kings_fen, ["e8d7"; "e1d2"]).
      repeat split; try reflexivity. discriminate.
Defined.

Lemma get_game_annotations_reads_only_witness :
  exists r w',
    get_game_annotations Sample.db_up "g1" "bob" Sample.stored_world = (r, w') /\
    no_writes Sample.stored_world w' /\
    engine_calls w' = engine_calls Sample.stored_world.
Proof.
  run_sample.
  exact (get_game_annotations_reads_only Sample.db_up "g1" "bob" _ _ _ Hrun).
Defined.

Lemma get_game_annotations_failures_are_500_witness :
  fst (get_game_annotations Sample.db_up "g9" "alice" Sample.stored_world) =
    Raise (HTTPException 500 "Error retrieving annotations: 404: Game not found") /\
  fst (get_game_annotations Sample.db_up "g1" "bob" Sample.stored_world) =
    Raise (HTTPException 500
             "Error retrieving annotations: 403: Unauthorized access to this game").
Proof.
  split.
  - exact (proj1 (proj2 (get_game_annotations_failures_are_500 Sample.db_up
                           "g9" "alice" Sample.stored_world))
             eq_refl eq_refl).
  - refine (proj2 (proj2 (get_game_annotations_failures_are_500 Sample.db_up
                            "g1" "bob" Sample.stored_world))
              eq_refl (mark Sample.open_game) eq_refl _).
    discriminate.
Defined.

(** The one row left by the failed insert is returned to the owner,
    although the game is not marked analyzed. *)
Lemma get_game_annotations_returns_stored_witness :
  exists w',
    get_game_annotations (Sample.db_failing_at 2) "g1" "alice"
      SampleRules.partial_world =
      (Return (map Annotation.fields (persisted "g1" SampleRules.partial_world)), w') /\
    List.length (persisted "g1" SampleRules.partial_world) = 1.
Proof.
  destruct (get_game_annotations_returns_stored Sample.lib Sample.engine
              (Sample.db_failing_at 2) "g1" "alice" SampleRules.partial_world
              Sample.open_game eq_refl eq_refl eq_refl eq_refl) as (w' & Hrun & _).
  exists w'. split; [exact Hrun | reflexivity].
Defined.

Lemma annotations_are_read_back_witness :
  exists resp w1 w2,
    annotate_game Sample.lib Sample.engine Sample.db_up "g1" "alice"
      (Sample.world [Sample.open_game]) = (Return resp, w1) /\
    get_game_annotations Sample.db_up "g1" "alice" w1 = (Return (annotations resp), w2).
Proof.
  destruct (annotate_game Sample.lib Sample.engine Sample.db_up "g1" "alice"
              (Sample.world [Sample.open_game])) as [r w1] eqn:Hrun.
  assert (Hresp : exists resp, r = Return resp)
    by (vm_compute in Hrun; injection Hrun as <- _; eexists; reflexivity).
  destruct Hresp as [resp ->].
  destruct (annotations_are_read_back Sample.lib Sample.engine Sample.db_up
              "g1" "alice" (Sample.world [Sample.open_game]) w1 resp Sample.open_game
              eq_refl eq_refl eq_refl Hrun eq_refl eq_refl) as [w2 Hread].
  exists resp, w1, w2. split; [reflexivity | exact Hread].
Defined.

(** X20: when the library reads back what it printed of the starting
    position, every move [new_game] lists in [legal_moves] is accepted by
    [make_move] on the position [new_game] returned in [fen]. *)
Theorem new_game_moves_are_accepted (rules : ChessRules)
    (starting_board : Board (replay rules)) (uuid4 : string) :
  reads_back rules starting_board ->
  forall first_move,
    In first_move (NewGame.legal_moves (new_game rules starting_board uuid4)) ->
    exists resp,
      Endpoints.make_move rules
        (MoveRequest.mk (NewGame.fen (new_game rules starting_board uuid4)) first_move) =
        inr resp.
Proof.
  intros (next & Hnext & Hmoves) first_move Hin.
  cbn [new_game NewGame.legal_moves NewGame.fen] in *.
  apply in_map_iff in Hin as (m & <- & Hin).
  destruct (Hmoves m Hin) as [Hm Hok].
  unfold Endpoints.make_move. cbn [MoveRequest.fen MoveRequest.move].
  rewrite Hnext, Hm, Hok. eexists. reflexivity.
Qed.

Lemma new_game_moves_are_accepted_witness :
  exists resp,
    Endpoints.make_move SampleRules.rules
      (MoveRequest.mk
         (NewGame.fen
            (new_game SampleRules.rules (Sample.mkBoard true Sample.start_fen) "id-1"))
         "e2e4") = inr resp.
Proof.
  apply (new_game_moves_are_accepted SampleRules.rules
           (Sample.mkBoard true Sample.start_fen) "id-1").
  - exists (Sample.mkBoard true Sample.start_fen). split; [reflexivity|].
    intros m [<-|[]]. split; reflexivity.
  - left. reflexivity.
Defined.
